(** * Dashboard data synchronisation: a shallow embedding

    The development embeds the data-synchronisation core of the trading
    dashboard: the API client ([src/services/apiService.js]), the
    [TradingDashboard] component of [src/components/PositionMonitor.js]
    (sync cycle, strategy control, retry, WebSocket feed, teardown) and
    the alert derivation of [src/components/AlertsPanel.js].

    JavaScript values are an inductive type, objects are finite maps with
    string keys, numbers are IEEE-754 binary64 floats.  Asynchronous code is
    cut at its [await] points: every suspended continuation is a value of an
    inductive type, and resuming it is a function on the component state.
    The network, the clock and the WebSocket peer are the environment. *)

From Stdlib Require Import PrimFloat ZArith Ascii.
From stdpp Require Import gmap strings list fin_maps pretty sorting.

Set Warnings "-register-all".
Set Default Proof Using "Type".

(** ** JavaScript values *)

Inductive value :=
| VUndef
| VNull
| VBool (b : bool)
| VNum (x : float)
| VStr (s : string)
| VArr (l : list value)
| VObj (o : gmap string value).

(** [ToBoolean]: the falsy values are [undefined], [null], [false], [+0],
    [-0], [NaN] and the empty string. *)
Definition truthy (v : value) : bool :=
  match v with
  | VUndef | VNull => false
  | VBool b => b
  | VNum x => negb (PrimFloat.eqb x 0%float) && PrimFloat.eqb x x
  | VStr s => negb (String.eqb s "")
  | VArr _ | VObj _ => true
  end.

(** [a || b] *)
Definition js_or (a b : value) : value := if truthy a then a else b.

(** [a && b] *)
Definition js_and (a b : value) : value := if truthy a then b else a.

Definition is_nullish (v : value) : bool :=
  match v with VUndef | VNull => true | _ => false end.

(** [v.k] for the property names the sources read ([success], [result],
    [built_in], [discovered], [current_directory], [account_balance],
    [running], [error], [start_time], [unrealized_pnl], [margin],
    [symbol]): none of them exists on the prototypes of arrays, strings,
    numbers or booleans, so only plain objects can carry them.  Reading a
    property of [undefined] or [null] throws; callers test [is_nullish]. *)
Definition js_get (v : value) (k : string) : value :=
  match v with
  | VObj o => default VUndef (o !! k)
  | _ => VUndef
  end.

Fixpoint chars (s : string) : list value :=
  match s with
  | EmptyString => []
  | String c r => VStr (String c EmptyString) :: chars r
  end.

Definition indexed (l : list value) : gmap string value :=
  list_to_map (imap (fun i v => (pretty i, v)) l).

(** Own enumerable properties, as copied by object spread [{...v}]. *)
Definition own_props (v : value) : gmap string value :=
  match v with
  | VObj o => o
  | VArr l => indexed l
  | VStr s => indexed (chars s)
  | _ => ∅
  end.

(** [{...a, ...b}]: the properties of [b] overwrite those of [a]. *)
Definition spread2 (a b : value) : value := VObj (own_props b ∪ own_props a).

(** Elements produced by array spread [[...v]]; [None] when [v] is not
    iterable and the spread throws a [TypeError]. *)
Definition iterate (v : value) : option (list value) :=
  match v with
  | VArr l => Some l
  | VStr s => Some (chars s)
  | _ => None
  end.

(** ** Errors and settled promises *)

Record js_error := JsError { err_name : string; err_message : string }.

(** [new Error(msg)] *)
Definition mkError (msg : string) : js_error := JsError "Error" msg.

(** A [TypeError] thrown by the engine; the message text is the engine's. *)
Definition typeError : js_error := JsError "TypeError" "not iterable or not an object".

Inductive settled (A : Type) :=
| Fulfilled (v : A)
| Rejected (e : js_error).
Arguments Fulfilled {A} v.
Arguments Rejected {A} e.

Definition is_rejected {A} (p : settled A) : bool :=
  match p with Rejected _ => true | Fulfilled _ => false end.

(** [try { return await p } catch { return fallback }] *)
Definition recover {A} (p : settled A) (fallback : A) : settled A :=
  match p with Fulfilled v => Fulfilled v | Rejected _ => Fulfilled fallback end.

(** ** The API client ([APIService]) *)

Module APIService.

Record http_request := HttpRequest {
  endpoint : string;
  http_method : string;
  http_body : option value
}.

Definition GET (path : string) : http_request := HttpRequest path "GET" None.
Definition POST (path : string) (body : value) : http_request :=
  HttpRequest path "POST" (Some body).

(** What the platform's [fetch] does with one request: it rejects (network
    failure, or [AbortError] when the timeout aborts it), or it yields a
    response whose body readers [text()] and [json()] may reject in turn. *)
Inductive fetch_outcome :=
| FetchRejects (e : js_error)
| FetchResponds (ok : bool) (status : Z) (text : settled string) (json : settled value).

Definition network := http_request -> fetch_outcome.

Definition requestTimeout : Z := 15000.

(** The [catch] block of [request]: an abort becomes a timeout error, any
    other error is rethrown as it is. *)
Definition request_catch (e : js_error) : js_error :=
  if String.eqb (err_name e) "AbortError"
  then mkError ("Request timed out after " +:+ pretty (requestTimeout / 1000)%Z +:+ "s")
  else e.

Definition request (net : network) (r : http_request) : settled value :=
  match net r with
  | FetchRejects e => Rejected (request_catch e)
  | FetchResponds ok status text json =>
      if ok then
        match json with
        | Fulfilled data => Fulfilled data
        | Rejected e => Rejected (request_catch e)
        end
      else
        match text with
        | Fulfilled errorText =>
            Rejected (request_catch
              (mkError ("API Error: " +:+ pretty status +:+ " - " +:+ errorText)))
        | Rejected e => Rejected (request_catch e)
        end
  end.

(** [catch (error) { throw error }] *)
Definition rethrow {A} (p : settled A) : settled A :=
  match p with Fulfilled v => Fulfilled v | Rejected e => Rejected e end.

Definition getAvailableStrategies (net : network) : settled value :=
  rethrow (request net (GET "/strategies/available")).

Definition getHealth (net : network) : settled value :=
  request net (GET "/health").

Definition getAllStrategiesStatus (net : network) : settled value :=
  recover (request net (GET "/strategies/status")) (VObj ∅).

Definition getWallet (net : network) : settled value :=
  recover (request net (GET "/wallet")) (VObj ∅).

Definition getMarketData (net : network) (symbol : string) : settled value :=
  recover (request net (GET ("/market/" +:+ symbol))) (VObj ∅).

Definition getPositions (net : network) (symbol : string) : settled value :=
  recover (request net (GET ("/positions/" +:+ symbol))) (VObj ∅).

Definition getTrades (net : network) : settled value :=
  recover (request net (GET "/trades")) (VArr []).

Definition getTradeStats (net : network) : settled value :=
  recover (request net (GET "/trade_stats")) (VObj ∅).

(** [JSON.stringify({ symbol, ...config })]: the body is kept as the value
    that is serialised. *)
Definition startStrategy (net : network) (symbol : string) (config : value) : settled value :=
  request net (POST "/strategies/start"
                 (VObj (own_props config ∪ {[ "symbol" := VStr symbol ]}))).

Definition stopStrategy (net : network) (symbol : string) : settled value :=
  request net (POST "/strategies/stop" (VObj {[ "symbol" := VStr symbol ]})).

Definition unavailable_health : value :=
  VObj {[ "success" := VBool false;
          "result" := VObj {[ "summary" := VObj {[ "status" := VStr "unavailable" ]} ]} ]}.

Definition getSystemHealth (net : network) : settled value :=
  recover (request net (GET "/system/health")) unavailable_health.

Definition getSMCAnalysis (net : network) (symbol : string) : settled value :=
  recover (request net (GET ("/smc_analysis/" +:+ symbol))) VNull.

Definition getCandles (net : network) (symbol timeframe : string) (limit : Z) : settled value :=
  rethrow (request net
    (GET ("/candles/" +:+ symbol +:+ "?timeframe=" +:+ timeframe +:+ "&limit=" +:+ pretty limit))).

(** The static methods of the class, with their arguments. *)
Inductive call :=
| CallRequest (r : http_request)
| CallGetAvailableStrategies
| CallGetHealth
| CallGetAllStrategiesStatus
| CallGetWallet
| CallGetMarketData (symbol : string)
| CallGetPositions (symbol : string)
| CallGetTrades
| CallGetTradeStats
| CallStartStrategy (symbol : string) (config : value)
| CallStopStrategy (symbol : string)
| CallGetSystemHealth
| CallGetSMCAnalysis (symbol : string)
| CallGetCandles (symbol timeframe : string) (limit : Z).

Definition invoke (net : network) (c : call) : settled value :=
  match c with
  | CallRequest r => request net r
  | CallGetAvailableStrategies => getAvailableStrategies net
  | CallGetHealth => getHealth net
  | CallGetAllStrategiesStatus => getAllStrategiesStatus net
  | CallGetWallet => getWallet net
  | CallGetMarketData s => getMarketData net s
  | CallGetPositions s => getPositions net s
  | CallGetTrades => getTrades net
  | CallGetTradeStats => getTradeStats net
  | CallStartStrategy s cfg => startStrategy net s cfg
  | CallStopStrategy s => stopStrategy net s
  | CallGetSystemHealth => getSystemHealth net
  | CallGetSMCAnalysis s => getSMCAnalysis net s
  | CallGetCandles s tf n => getCandles net s tf n
  end.

(** The one HTTP request a call issues. *)
Definition request_of (c : call) : http_request :=
  match c with
  | CallRequest r => r
  | CallGetAvailableStrategies => GET "/strategies/available"
  | CallGetHealth => GET "/health"
  | CallGetAllStrategiesStatus => GET "/strategies/status"
  | CallGetWallet => GET "/wallet"
  | CallGetMarketData s => GET ("/market/" +:+ s)
  | CallGetPositions s => GET ("/positions/" +:+ s)
  | CallGetTrades => GET "/trades"
  | CallGetTradeStats => GET "/trade_stats"
  | CallStartStrategy s cfg =>
      POST "/strategies/start" (VObj (own_props cfg ∪ {[ "symbol" := VStr s ]}))
  | CallStopStrategy s => POST "/strategies/stop" (VObj {[ "symbol" := VStr s ]})
  | CallGetSystemHealth => GET "/system/health"
  | CallGetSMCAnalysis s => GET ("/smc_analysis/" +:+ s)
  | CallGetCandles s tf n =>
      GET ("/candles/" +:+ s +:+ "?timeframe=" +:+ tf +:+ "&limit=" +:+ pretty n)
  end.

(** The seven wrappers the synchroniser polls with, and their fallbacks. *)
Definition fallback (c : call) : option value :=
  match c with
  | CallGetAllStrategiesStatus | CallGetWallet | CallGetMarketData _
  | CallGetPositions _ | CallGetTradeStats => Some (VObj ∅)
  | CallGetTrades => Some (VArr [])
  | CallGetSystemHealth => Some unavailable_health
  | _ => None
  end.

(** The methods that let a failure of the request reach their caller. *)
Definition propagating (c : call) : bool :=
  match c with
  | CallRequest _ | CallGetAvailableStrategies | CallGetHealth
  | CallStartStrategy _ _ | CallStopStrategy _ | CallGetCandles _ _ _ => true
  | _ => false
  end.

(** A backend that is down, and one that answers every request with [v]. *)
Definition offline : network :=
  fun _ => FetchRejects (JsError "TypeError" "Failed to fetch").

Definition answering (v : value) : network :=
  fun _ => FetchResponds true 200 (Fulfilled "") (Fulfilled v).

End APIService.

(** ** The dashboard component ([TradingDashboard]) *)

Module TradingDashboard.
Import APIService.

Definition TRACKED_SYMBOLS : list string := ["BTCUSD"; "ETHUSD"; "XRPUSD"; "SOLUSD"].

(** [UPDATE_INTERVALS.market] and the period of the strategy-status poll. *)
Definition UPDATE_INTERVALS_market : Z := 5000.
Definition STATUS_POLL_INTERVAL : Z := 10000.

Inductive connection := disconnected | connecting | connected | conn_error.

Record account := Account { balance : value; wallet : value }.

(** The [useState] slices the synchroniser writes, followed by the two
    [useRef] flags [isMounted] and [fetchInProgress]. *)
Record dashboard := Dashboard {
  selectedSymbol : string;
  selectedStrategyType : string;
  availableStrategies : list value;
  strategies : value;
  marketData : gmap string value;
  accountData : account;
  positionData : gmap string value;
  tradeData : value;
  tradeStats : value;
  loading : bool;
  error : option string;
  lastUpdate : option Z;
  connectionStatus : connection;
  retryCount : nat;
  alertsCount : nat;
  systemHealth : value;
  isMounted : bool;
  fetchInProgress : bool
}.

Definition initial : dashboard :=
  Dashboard "BTCUSD" "ema_strategy" [] (VObj ∅) ∅ (Account (VNum 0) (VArr [])) ∅
    (VArr []) (VObj ∅) true None None disconnected 0 0 (VObj ∅) true false.

Definition setSelectedSymbol (x : string) (st : dashboard) : dashboard :=
  Dashboard x (selectedStrategyType st) (availableStrategies st) (strategies st)
    (marketData st) (accountData st) (positionData st) (tradeData st) (tradeStats st)
    (loading st) (error st) (lastUpdate st) (connectionStatus st) (retryCount st)
    (alertsCount st) (systemHealth st) (isMounted st) (fetchInProgress st).

Definition setAvailableStrategies (x : list value) (st : dashboard) : dashboard :=
  Dashboard (selectedSymbol st) (selectedStrategyType st) x (strategies st)
    (marketData st) (accountData st) (positionData st) (tradeData st) (tradeStats st)
    (loading st) (error st) (lastUpdate st) (connectionStatus st) (retryCount st)
    (alertsCount st) (systemHealth st) (isMounted st) (fetchInProgress st).

Definition setStrategies (x : value) (st : dashboard) : dashboard :=
  Dashboard (selectedSymbol st) (selectedStrategyType st) (availableStrategies st) x
    (marketData st) (accountData st) (positionData st) (tradeData st) (tradeStats st)
    (loading st) (error st) (lastUpdate st) (connectionStatus st) (retryCount st)
    (alertsCount st) (systemHealth st) (isMounted st) (fetchInProgress st).

Definition setMarketData (x : gmap string value) (st : dashboard) : dashboard :=
  Dashboard (selectedSymbol st) (selectedStrategyType st) (availableStrategies st)
    (strategies st) x (accountData st) (positionData st) (tradeData st) (tradeStats st)
    (loading st) (error st) (lastUpdate st) (connectionStatus st) (retryCount st)
    (alertsCount st) (systemHealth st) (isMounted st) (fetchInProgress st).

Definition setAccountData (x : account) (st : dashboard) : dashboard :=
  Dashboard (selectedSymbol st) (selectedStrategyType st) (availableStrategies st)
    (strategies st) (marketData st) x (positionData st) (tradeData st) (tradeStats st)
    (loading st) (error st) (lastUpdate st) (connectionStatus st) (retryCount st)
    (alertsCount st) (systemHealth st) (isMounted st) (fetchInProgress st).

Definition setPositionData (x : gmap string value) (st : dashboard) : dashboard :=
  Dashboard (selectedSymbol st) (selectedStrategyType st) (availableStrategies st)
    (strategies st) (marketData st) (accountData st) x (tradeData st) (tradeStats st)
    (loading st) (error st) (lastUpdate st) (connectionStatus st) (retryCount st)
    (alertsCount st) (systemHealth st) (isMounted st) (fetchInProgress st).

Definition setTradeData (x : value) (st : dashboard) : dashboard :=
  Dashboard (selectedSymbol st) (selectedStrategyType st) (availableStrategies st)
    (strategies st) (marketData st) (accountData st) (positionData st) x (tradeStats st)
    (loading st) (error st) (lastUpdate st) (connectionStatus st) (retryCount st)
    (alertsCount st) (systemHealth st) (isMounted st) (fetchInProgress st).

Definition setTradeStats (x : value) (st : dashboard) : dashboard :=
  Dashboard (selectedSymbol st) (selectedStrategyType st) (availableStrategies st)
    (strategies st) (marketData st) (accountData st) (positionData st) (tradeData st) x
    (loading st) (error st) (lastUpdate st) (connectionStatus st) (retryCount st)
    (alertsCount st) (systemHealth st) (isMounted st) (fetchInProgress st).

Definition setLoading (x : bool) (st : dashboard) : dashboard :=
  Dashboard (selectedSymbol st) (selectedStrategyType st) (availableStrategies st)
    (strategies st) (marketData st) (accountData st) (positionData st) (tradeData st)
    (tradeStats st) x (error st) (lastUpdate st) (connectionStatus st) (retryCount st)
    (alertsCount st) (systemHealth st) (isMounted st) (fetchInProgress st).

Definition setError (x : option string) (st : dashboard) : dashboard :=
  Dashboard (selectedSymbol st) (selectedStrategyType st) (availableStrategies st)
    (strategies st) (marketData st) (accountData st) (positionData st) (tradeData st)
    (tradeStats st) (loading st) x (lastUpdate st) (connectionStatus st) (retryCount st)
    (alertsCount st) (systemHealth st) (isMounted st) (fetchInProgress st).

Definition setLastUpdate (x : option Z) (st : dashboard) : dashboard :=
  Dashboard (selectedSymbol st) (selectedStrategyType st) (availableStrategies st)
    (strategies st) (marketData st) (accountData st) (positionData st) (tradeData st)
    (tradeStats st) (loading st) (error st) x (connectionStatus st) (retryCount st)
    (alertsCount st) (systemHealth st) (isMounted st) (fetchInProgress st).

Definition setConnectionStatus (x : connection) (st : dashboard) : dashboard :=
  Dashboard (selectedSymbol st) (selectedStrategyType st) (availableStrategies st)
    (strategies st) (marketData st) (accountData st) (positionData st) (tradeData st)
    (tradeStats st) (loading st) (error st) (lastUpdate st) x (retryCount st)
    (alertsCount st) (systemHealth st) (isMounted st) (fetchInProgress st).

Definition setRetryCount (x : nat) (st : dashboard) : dashboard :=
  Dashboard (selectedSymbol st) (selectedStrategyType st) (availableStrategies st)
    (strategies st) (marketData st) (accountData st) (positionData st) (tradeData st)
    (tradeStats st) (loading st) (error st) (lastUpdate st) (connectionStatus st) x
    (alertsCount st) (systemHealth st) (isMounted st) (fetchInProgress st).

Definition setAlertsCount (x : nat) (st : dashboard) : dashboard :=
  Dashboard (selectedSymbol st) (selectedStrategyType st) (availableStrategies st)
    (strategies st) (marketData st) (accountData st) (positionData st) (tradeData st)
    (tradeStats st) (loading st) (error st) (lastUpdate st) (connectionStatus st)
    (retryCount st) x (systemHealth st) (isMounted st) (fetchInProgress st).

Definition setSystemHealth (x : value) (st : dashboard) : dashboard :=
  Dashboard (selectedSymbol st) (selectedStrategyType st) (availableStrategies st)
    (strategies st) (marketData st) (accountData st) (positionData st) (tradeData st)
    (tradeStats st) (loading st) (error st) (lastUpdate st) (connectionStatus st)
    (retryCount st) (alertsCount st) x (isMounted st) (fetchInProgress st).

Definition set_isMounted (x : bool) (st : dashboard) : dashboard :=
  Dashboard (selectedSymbol st) (selectedStrategyType st) (availableStrategies st)
    (strategies st) (marketData st) (accountData st) (positionData st) (tradeData st)
    (tradeStats st) (loading st) (error st) (lastUpdate st) (connectionStatus st)
    (retryCount st) (alertsCount st) (systemHealth st) x (fetchInProgress st).

Definition set_fetchInProgress (x : bool) (st : dashboard) : dashboard :=
  Dashboard (selectedSymbol st) (selectedStrategyType st) (availableStrategies st)
    (strategies st) (marketData st) (accountData st) (positionData st) (tradeData st)
    (tradeStats st) (loading st) (error st) (lastUpdate st) (connectionStatus st)
    (retryCount st) (alertsCount st) (systemHealth st) (isMounted st) x.
(** The rendered state: every [useState] slice, without the refs. *)
Definition viewModel (st : dashboard) : dashboard :=
  set_isMounted true (set_fetchInProgress false st).

(** [safeSetState(setter, value)] *)
Definition safeSetState {A} (setter : A -> dashboard -> dashboard) (x : A)
    (st : dashboard) : dashboard :=
  if isMounted st then setter x st else st.

(** [safeSetState(setter, prev => f(prev))] for a slice read with [get].
    An updater that throws does so inside the renderer, not in the caller:
    the slice keeps its value ([f] returns [None]). *)
Definition safeUpdate {A} (get : dashboard -> A) (setter : A -> dashboard -> dashboard)
    (f : A -> option A) (st : dashboard) : dashboard :=
  if isMounted st then
    match f (get st) with Some x => setter x st | None => st end
  else st.

(** *** The single fetchers *)

Definition strategies_error (e : js_error) : option string :=
  Some ("Failed to load available strategies: " +:+ err_message e).

(** [fetchAvailableStrategies] after its [await]: the new state and the
    boolean it returns. *)
Definition fetchAvailableStrategies (response : settled value) (st : dashboard)
    : dashboard * bool :=
  let failed e := (safeSetState setError (strategies_error e) st, false) in
  match response with
  | Rejected e => failed e
  | Fulfilled response =>
      if truthy (js_and response (js_get response "success")) then
        let result := js_get response "result" in
        if is_nullish result then failed typeError
        else
          match iterate (js_get result "built_in"),
                iterate (js_get result "discovered"),
                iterate (js_get result "current_directory") with
          | Some built_in, Some discovered, Some current_directory =>
              (safeSetState setAvailableStrategies
                 (built_in ++ discovered ++ current_directory) st, true)
          | _, _, _ => failed typeError
          end
      else failed (mkError "Invalid response from strategies endpoint")
  end.

(** [fetchStrategiesStatus] after its [await]. *)
Definition fetchStrategiesStatus (net : network) (st : dashboard) : dashboard :=
  match getAllStrategiesStatus net with
  | Fulfilled statusResponse => safeSetState setStrategies (js_or statusResponse (VObj ∅)) st
  | Rejected _ => st
  end.

(** The loop body shared by [fetchMarketData] and [fetchPositionData]:
    [response[symbol] = data], or [{}] when the call throws. *)
Definition collect (get : string -> settled value) (symbols : list string)
    : gmap string value :=
  foldl (fun response symbol =>
           match get symbol with
           | Fulfilled data => <[symbol := data]> response
           | Rejected _ => <[symbol := VObj ∅]> response
           end) ∅ symbols.

(** [fetchMarketData] (the light poll) after its last [await]. *)
Definition fetchMarketData (net : network) (st : dashboard) : dashboard :=
  safeSetState setMarketData (collect (getMarketData net) TRACKED_SYMBOLS) st.

(** [fetchWalletData] after its [await]. *)
Definition fetchWalletData (net : network) (st : dashboard) : dashboard :=
  match getWallet net with
  | Fulfilled walletResponse =>
      safeUpdate accountData setAccountData
        (fun prev => Some (Account (balance prev) (js_or walletResponse (VArr [])))) st
  | Rejected _ => st
  end.

(** [fetchPositionData] after its last [await]. *)
Definition fetchPositionData (net : network) (st : dashboard) : dashboard :=
  safeSetState setPositionData (collect (getPositions net) TRACKED_SYMBOLS) st.

(** [fetchTradeData] after [Promise.all] settles. *)
Definition fetchTradeData (net : network) (st : dashboard) : dashboard :=
  match getTrades net, getTradeStats net with
  | Fulfilled tradesResponse, Fulfilled statsResponse =>
      safeSetState setTradeStats (js_or statsResponse (VObj ∅))
        (safeSetState setTradeData (js_or tradesResponse (VArr [])) st)
  | _, _ => st
  end.

(** [fetchSystemHealth] after its [await]. *)
Definition fetchSystemHealth (net : network) (st : dashboard) : dashboard :=
  match getSystemHealth net with
  | Fulfilled healthResponse => safeSetState setSystemHealth (js_or healthResponse (VObj ∅)) st
  | Rejected _ => st
  end.

(** *** The sync cycle ([fetchData]) *)

(** The [await] points at which a cycle is suspended.  At the last one the
    cycle waits for three fetchers that settle one by one; the flags tell
    which of them are still pending. *)
Inductive phase :=
| AwaitStrategies
| AwaitBasic
| AwaitMarket (issued : bool)
| AwaitAdditional (positions trades health : bool).

Inductive outcome :=
| Completed    (* ran to the end of the [try] block *)
| Failed       (* left through the [catch] block *)
| TornDown.    (* returned early because the component was unmounted *)

Inductive progress :=
| Suspended (p : phase)
| Finished (o : outcome).

(** Which awaited promise settles; [net] is the backend as seen by the
    requests behind it and [now] the clock when the continuation runs. *)
Inductive source := Main | Positions | Trades | SystemHealth.

Record resumption := Resumption { settles : source; net : network; now : Z }.

Definition fetchData_catch (err : js_error) (st : dashboard) : dashboard :=
  let st := safeSetState setError
              (Some (if String.eqb (err_message err) "" then "Unknown error occurred"
                     else err_message err)) st in
  let st := safeSetState setConnectionStatus conn_error st in
  safeUpdate retryCount setRetryCount (fun prev => Some (prev + 1)) st.

Definition fetchData_finally (st : dashboard) : dashboard :=
  let st := if isMounted st then safeSetState setLoading false st else st in
  set_fetchInProgress false st.

Definition fetchData_throw (err : js_error) (st : dashboard) : dashboard * progress :=
  (fetchData_finally (fetchData_catch err st), Finished Failed).

(** Entry of [fetchData], up to the first [await].  [None]: the guard
    returned at once. *)
Definition fetchData (st : dashboard) : dashboard * option phase :=
  if negb (isMounted st) || fetchInProgress st then (st, None)
  else
    let st := set_fetchInProgress true st in
    let st := safeSetState setError None st in
    let st := safeSetState setConnectionStatus connecting st in
    (st, Some AwaitStrategies).

Definition after_strategies (r : resumption) (st : dashboard) : dashboard * progress :=
  let '(st, strategiesLoaded) := fetchAvailableStrategies (getAvailableStrategies (net r)) st in
  if strategiesLoaded then (st, Suspended AwaitBasic)
  else fetchData_throw (mkError "Failed to load available strategies") st.

Definition balance_updater (healthData : value) (prev : account) : option account :=
  if is_nullish healthData then None
  else Some (Account (js_or (js_get healthData "account_balance") (VNum 0)) (wallet prev)).

Definition after_basic (r : resumption) (st : dashboard) : dashboard * progress :=
  let healthResult := getHealth (net r) in
  let strategiesResult := getAllStrategiesStatus (net r) in
  let walletResult := getWallet (net r) in
  if negb (isMounted st) then (fetchData_finally st, Finished TornDown)
  else
    match healthResult with
    | Rejected reason =>
        fetchData_throw (mkError ("Health check failed: " +:+ err_message reason)) st
    | Fulfilled healthData =>
        let st := safeSetState setConnectionStatus connected st in
        let st := safeUpdate accountData setAccountData (balance_updater healthData) st in
        let st :=
          match strategiesResult with
          | Fulfilled v => safeSetState setStrategies (js_or v (VObj ∅)) st
          | Rejected _ => safeSetState setStrategies (VObj ∅) st
          end in
        let st :=
          match walletResult with
          | Fulfilled v =>
              safeUpdate accountData setAccountData
                (fun prev => Some (Account (balance prev) (js_or v (VArr [])))) st
          | Rejected _ => st
          end in
        (st, Suspended (AwaitMarket (isMounted st)))
    end.

(** What one of the [marketPromises] resolves to. *)
Definition market_result (issued : bool) (net : network) (symbol : string) : string * value :=
  if issued then
    match getMarketData net symbol with
    | Fulfilled data => (symbol, js_or data (VObj ∅))
    | Rejected _ => (symbol, VObj ∅)
    end
  else (symbol, VObj ∅).

Definition after_market (issued : bool) (r : resumption) (st : dashboard)
    : dashboard * progress :=
  let marketResults := map (market_result issued (net r)) TRACKED_SYMBOLS in
  if negb (isMounted st) then (fetchData_finally st, Finished TornDown)
  else
    let newMarketData :=
      foldl (fun m '(symbol, data) => <[symbol := data]> m) ∅ marketResults in
    (safeSetState setMarketData newMarketData st, Suspended (AwaitAdditional true true true)).

(** The end of the [try] block, reached when the last of the three
    additional fetchers has settled. *)
Definition fetchData_complete (now : Z) (st : dashboard) : dashboard * progress :=
  let st := safeSetState setLastUpdate (Some now) st in
  let st := safeSetState setRetryCount 0 st in
  (fetchData_finally st, Finished Completed).

Definition after_additional (positions trades health : bool) (r : resumption)
    (st : dashboard) : dashboard * progress :=
  let settled_now (pending : bool) (f : network -> dashboard -> dashboard) st :=
    if pending then f (net r) st else st in
  let '(st, positions, trades, health) :=
    match settles r with
    | Positions => (settled_now positions fetchPositionData st, false, trades, health)
    | Trades => (settled_now trades fetchTradeData st, positions, false, health)
    | SystemHealth => (settled_now health fetchSystemHealth st, positions, trades, false)
    | Main => (st, positions, trades, health)
    end in
  if positions || trades || health then (st, Suspended (AwaitAdditional positions trades health))
  else fetchData_complete (now r) st.

(** Resuming a suspended cycle. *)
Definition resume (p : phase) (r : resumption) (st : dashboard) : dashboard * progress :=
  match p, settles r with
  | AwaitStrategies, Main => after_strategies r st
  | AwaitBasic, Main => after_basic r st
  | AwaitMarket issued, Main => after_market issued r st
  | AwaitAdditional positions trades health, _ => after_additional positions trades health r st
  | _, _ => (st, Suspended p)
  end.

(** *** Teardown *)

(** The refs written by the unmount cleanup. *)
Definition unmount (st : dashboard) : dashboard :=
  set_fetchInProgress false (set_isMounted false st).

(** *** One cycle from entry to end *)

(** The backend as each wave of requests sees it, the clock, and whether
    the component is unmounted while the cycle waits at its n-th [await]
    (the three additional fetchers settle at awaits 3, 4 and 5). *)
Record cycle_env := CycleEnv {
  net_strategies : network;
  net_basic : network;
  net_market : network;
  net_additional : network;
  clock : Z;
  teardown : nat -> bool
}.

Definition await (torn : bool) (st : dashboard) : dashboard :=
  if torn then unmount st else st.

Fixpoint drive (script : list (bool * resumption)) (p : phase) (st : dashboard)
    : dashboard * progress :=
  match script with
  | [] => (st, Suspended p)
  | (torn, r) :: rest =>
      let '(st, pr) := resume p r (await torn st) in
      match pr with
      | Suspended p' => drive rest p' st
      | Finished o => (st, Finished o)
      end
  end.

Definition script (env : cycle_env) : list (bool * resumption) :=
  [ (teardown env 0, Resumption Main (net_strategies env) (clock env));
    (teardown env 1, Resumption Main (net_basic env) (clock env));
    (teardown env 2, Resumption Main (net_market env) (clock env));
    (teardown env 3, Resumption Positions (net_additional env) (clock env));
    (teardown env 4, Resumption Trades (net_additional env) (clock env));
    (teardown env 5, Resumption SystemHealth (net_additional env) (clock env)) ].

(** [None]: the call was dropped by the guard. *)
Definition run_cycle (env : cycle_env) (st : dashboard) : dashboard * option progress :=
  match fetchData st with
  | (st, None) => (st, None)
  | (st, Some p) => let '(st, pr) := drive (script env) p st in (st, Some pr)
  end.

Definition stays_mounted (env : cycle_env) : Prop := forall n, teardown env n = false.

(** The two mandatory calls. *)
Definition strategy_list_fails (env : cycle_env) (st : dashboard) : bool :=
  negb (snd (fetchAvailableStrategies (getAvailableStrategies (net_strategies env)) st)).

Definition health_check_fails (env : cycle_env) : bool :=
  is_rejected (getHealth (net_basic env)).

(** The two mandatory calls as the backend answers them.  The bodies of
    [/strategies/available] that [fetchAvailableStrategies] accepts: a
    truthy response with a truthy [success] whose [result] holds three
    lists that can be spread. *)
Definition usable_strategy_list (response : value) : bool :=
  truthy response && truthy (js_get response "success") &&
  negb (is_nullish (js_get response "result")) &&
  forallb (fun k => bool_decide (is_Some (iterate (js_get (js_get response "result") k))))
          ["built_in"; "discovered"; "current_directory"].

(** The strategy-list fetch fails: the request is rejected, or its body is
    not usable. *)
Definition strategy_list_unavailable (net : network) : bool :=
  match request net (GET "/strategies/available") with
  | Rejected _ => true
  | Fulfilled response => negb (usable_strategy_list response)
  end.

(** The health check fails: the request to [/health] is rejected. *)
Definition health_unreachable (net : network) : bool :=
  is_rejected (request net (GET "/health")).

(** The phases after the two mandatory calls. *)
Definition past_mandatory (p : phase) : bool :=
  match p with
  | AwaitStrategies | AwaitBasic => false
  | AwaitMarket _ | AwaitAdditional _ _ _ => true
  end.

(** *** Timers *)

Inductive timer_callback :=
| CbRefresh                                        (* if (isMounted.current) fetchData() *)
| CbReconnect (symbol : string) (generation : nat). (* connectWebSocket of one effect run *)

Record timer := Timer { delay : Z; callback : timer_callback }.

(** *** Strategy control *)

Definition no_response : value :=
  VObj {[ "success" := VBool false; "message" := VStr "No response from server" ]}.

Definition failure_of (e : js_error) : value :=
  VObj {[ "success" := VBool false; "message" := VStr (err_message e) ]}.

(** [handleStartStrategy] and [handleStopStrategy] after the awaited call,
    in the state the component has when the call settles: the new state,
    the timers set and the value returned to the panel. *)
Definition handle_control (result : settled value) (st : dashboard)
    : dashboard * list timer * value :=
  match result with
  | Fulfilled result =>
      if truthy (js_and result (js_get result "success")) && isMounted st then
        (safeUpdate alertsCount setAlertsCount (fun prev => Some (prev + 1)) st,
         [Timer 1000 CbRefresh], js_or result no_response)
      else (st, [], js_or result no_response)
  | Rejected e => (st, [], failure_of e)
  end.

(** [{ ...config, strategy_name: config.strategy_name || selectedStrategyType }];
    [None] when reading [config.strategy_name] throws. *)
Definition finalConfig (config : value) (st : dashboard) : option value :=
  if is_nullish config then None
  else Some (VObj (<[ "strategy_name" :=
                      js_or (js_get config "strategy_name") (VStr (selectedStrategyType st)) ]>
                    (own_props config))).

Definition handleStartStrategy (net : network) (symbol : string) (config : value)
    (st : dashboard) : dashboard * list timer * value :=
  match finalConfig config st with
  | Some cfg => handle_control (startStrategy net symbol cfg) st
  | None => handle_control (Rejected typeError) st
  end.

Definition handleStopStrategy (net : network) (symbol : string) (st : dashboard)
    : dashboard * list timer * value :=
  handle_control (stopStrategy net symbol) st.

(** *** Retry *)

(** [Math.min(1000 * Math.pow(2, retryCount), 10000)].  On doubles the
    product is exact while it is finite and is [Infinity] afterwards, so
    the minimum is the one computed on integers. *)
Definition retry_delay (retryCount : nat) : Z :=
  Z.min (1000 * 2 ^ Z.of_nat retryCount) 10000.

Definition handleRetry (st : dashboard) : timer :=
  Timer (retry_delay (retryCount st)) CbRefresh.

(** The delays [handleRetry] computes after each of [n] cycles in a row
    that fail, every one being retried from the state its predecessor
    left. *)
Fixpoint retry_delays (envs : list cycle_env) (st : dashboard) : list Z :=
  match envs with
  | [] => []
  | env :: rest =>
      let st := fst (run_cycle env st) in
      delay (handleRetry st) :: retry_delays rest st
  end.

(** [envs] are cycles in a row that all fail, each started from the state
    its predecessor left, the component staying mounted. *)
Fixpoint consecutive_failures (envs : list cycle_env) (st : dashboard) : Prop :=
  match envs with
  | [] => True
  | env :: rest =>
      stays_mounted env ∧ (run_cycle env st).2 = Some (Finished Failed) ∧
      consecutive_failures rest (run_cycle env st).1
  end.

(** The two control operations of the gateway. *)
Inductive control :=
| Start (symbol : string) (config : value)
| Stop (symbol : string).

Definition handle (net : network) (c : control) (st : dashboard)
    : dashboard * list timer * value :=
  match c with
  | Start symbol config => handleStartStrategy net symbol config st
  | Stop symbol => handleStopStrategy net symbol st
  end.

(** What the call awaited by the handler settles to. *)
Definition reply (net : network) (c : control) (st : dashboard) : settled value :=
  match c with
  | Start symbol config =>
      match finalConfig config st with
      | Some cfg => startStrategy net symbol cfg
      | None => Rejected typeError
      end
  | Stop symbol => stopStrategy net symbol
  end.

(** *** The WebSocket feed *)

Inductive ready_state := CONNECTING | OPEN | CLOSING | CLOSED.

(** A socket remembers the symbol its handlers closed over.
    [ws_generation] numbers the run of the effect that created the
    closure; the source has no such counter, it is kept to speak about
    channels the component has closed. *)
Record socket := Socket {
  ws_symbol : string;
  ws_generation : nat;
  readyState : ready_state
}.

(** [onmessage] of a socket opened for [selectedSymbol]; [data] is [None]
    when [JSON.parse] throws. *)
Definition onmessage (selectedSymbol : string) (data : option value) (st : dashboard)
    : dashboard :=
  match data with
  | None => st
  | Some data =>
      setMarketData
        (<[ selectedSymbol := spread2 (default VUndef (marketData st !! selectedSymbol)) data ]>
           (marketData st)) st
  end.

(** [ws.close()] *)
Definition close (s : socket) : socket :=
  match readyState s with
  | CONNECTING | OPEN => Socket (ws_symbol s) (ws_generation s) CLOSING
  | CLOSING | CLOSED => s
  end.

(** *** The component and its pending work *)

Record world := World {
  dash : dashboard;
  cycles : list phase;        (* suspended [fetchData] continuations *)
  timers : list timer;        (* pending [setTimeout] callbacks *)
  sockets : list socket;      (* every WebSocket created so far *)
  wsRef : option nat;         (* index of [wsRef.current] in [sockets] *)
  generation : nat            (* runs of the WebSocket effect so far *)
}.

Definition with_dash (st : dashboard) (w : world) : world :=
  World st (cycles w) (timers w) (sockets w) (wsRef w) (generation w).

Definition with_timers (ts : list timer) (w : world) : world :=
  World (dash w) (cycles w) ts (sockets w) (wsRef w) (generation w).

Definition with_sockets (ss : list socket) (w : world) : world :=
  World (dash w) (cycles w) (timers w) ss (wsRef w) (generation w).

(** A call of [fetchData]. *)
Definition call_fetchData (w : world) : world :=
  let '(st, p) := fetchData (dash w) in
  World st (cycles w ++ option_list p) (timers w) (sockets w) (wsRef w) (generation w).

(** [connectWebSocket] of the effect run [gen], whose closure holds
    [symbol].  The constructor is taken to succeed: the URL is well formed
    for every symbol, and a socket that cannot connect gets a close event. *)
Definition connectWebSocket (symbol : string) (gen : nat) (w : world) : world :=
  World (dash w) (cycles w) (timers w) (sockets w ++ [Socket symbol gen CONNECTING])
    (Some (length (sockets w))) (generation w).

(** [if (wsRef.current) wsRef.current.close()] *)
Definition close_current (w : world) : world :=
  match wsRef w with
  | Some i => with_sockets (alter close i (sockets w)) w
  | None => w
  end.

Definition run_callback (cb : timer_callback) (w : world) : world :=
  match cb with
  | CbRefresh => if isMounted (dash w) then call_fetchData w else w
  | CbReconnect symbol gen => connectWebSocket symbol gen w
  end.

(** What can happen to a mounted component.  User events reach it only
    while it is mounted; messages reach a socket only while it is open. *)
Inductive event :=
| EvFetchData                                 (* the refresh effect calls [fetchData] *)
| EvRefresh                                   (* [handleRefresh] *)
| EvRetry                                     (* [handleRetry] *)
| EvSelectSymbol (symbol : string)            (* the user picks another symbol *)
| EvResume (i : nat) (r : resumption)         (* promises awaited by cycle [i] settle *)
| EvControlSettles (result : settled value)   (* a start or stop call settles *)
| EvStatusPollSettles (net : network)         (* [fetchStrategiesStatus] of a light poll *)
| EvMarketPollSettles (net : network)         (* [fetchMarketData] of a light poll *)
| EvTimer (i : nat)                           (* timer [i] fires *)
| EvWsOpen (i : nat)
| EvWsMessage (i : nat) (data : option value)
| EvWsClose (i : nat)                         (* the close event of socket [i] *)
| EvWsError (i : nat)
| EvUnmount.

Definition step (e : event) (w : world) : world :=
  match e with
  | EvFetchData => call_fetchData w
  | EvRefresh =>
      if isMounted (dash w)
      then call_fetchData (with_dash (safeSetState setLoading true (dash w)) w)
      else w
  | EvRetry =>
      if isMounted (dash w) then with_timers (timers w ++ [handleRetry (dash w)]) w else w
  | EvSelectSymbol symbol =>
      if isMounted (dash w) && negb (String.eqb symbol (selectedSymbol (dash w))) then
        let w := with_dash (setSelectedSymbol symbol (dash w)) w in
        let w := close_current w in
        let w := World (dash w) (cycles w) (timers w) (sockets w) (wsRef w)
                   (S (generation w)) in
        connectWebSocket symbol (generation w) w
      else w
  | EvResume i r =>
      match cycles w !! i with
      | None => w
      | Some p =>
          let '(st, pr) := resume p r (dash w) in
          let cs := match pr with
                    | Suspended p' => <[i := p']> (cycles w)
                    | Finished _ => delete i (cycles w)
                    end in
          World st cs (timers w) (sockets w) (wsRef w) (generation w)
      end
  | EvControlSettles result =>
      let '(st, ts, _) := handle_control result (dash w) in
      with_timers (timers w ++ ts) (with_dash st w)
  | EvStatusPollSettles net => with_dash (fetchStrategiesStatus net (dash w)) w
  | EvMarketPollSettles net => with_dash (fetchMarketData net (dash w)) w
  | EvTimer i =>
      match timers w !! i with
      | None => w
      | Some t => run_callback (callback t) (with_timers (delete i (timers w)) w)
      end
  | EvWsOpen i =>
      match sockets w !! i with
      | Some (Socket symbol gen CONNECTING) =>
          with_sockets (<[i := Socket symbol gen OPEN]> (sockets w)) w
      | _ => w
      end
  | EvWsMessage i data =>
      match sockets w !! i with
      | Some (Socket symbol _ OPEN) => with_dash (onmessage symbol data (dash w)) w
      | _ => w
      end
  | EvWsClose i =>
      match sockets w !! i with
      | Some (Socket symbol gen st) =>
          match st with
          | CLOSED => w
          | _ =>
              with_timers (timers w ++ [Timer 5000 (CbReconnect symbol gen)])
                (with_sockets (<[i := Socket symbol gen CLOSED]> (sockets w)) w)
          end
      | None => w
      end
  | EvWsError _ => w
  | EvUnmount =>
      if isMounted (dash w) then
        let w := close_current w in
        with_dash (unmount (dash w)) w
      else w
  end.

Definition run (evs : list event) (w : world) : world :=
  foldl (fun w e => step e w) w evs.

(** The component right after its mount effects: [fetchData] has been
    called and the socket for the initial symbol is being opened. *)
Definition mounted : world :=
  connectWebSocket (selectedSymbol initial) 0 (call_fetchData (World initial [] [] [] None 0)).

(** A socket belongs to a channel the component has closed when the
    effect run that created its closure has been cleaned up: a later run
    replaced it, or the component was unmounted. *)
Definition logically_closed (w : world) (s : socket) : bool :=
  (ws_generation s <? generation w)%nat || negb (isMounted (dash w)).

(** *** Invariant of the cycle guard *)

(** At most one cycle is suspended, and while one is, [fetchInProgress] is
    set unless the component has been unmounted. *)
Definition single_cycle (w : world) : Prop :=
  (length (cycles w) ≤ 1)%nat ∧
  (cycles w ≠ [] → fetchInProgress (dash w) = true ∨ isMounted (dash w) = false).

(** *** Sample backends and states *)

(** The answers of a backend that is up. *)
Definition sample_payload (path : string) : value :=
  if String.eqb path "/strategies/available" then
    VObj {[ "success" := VBool true;
            "result" := VObj {[ "built_in" := VArr [VStr "ema_strategy"];
                                "discovered" := VArr [];
                                "current_directory" := VArr [] ]} ]}
  else if String.eqb path "/health" then VObj {[ "account_balance" := VNum 100 ]}
  else if String.eqb path "/strategies/status" then
    VObj {[ "ETHUSD" := VObj {[ "running" := VBool true ]} ]}
  else if String.eqb path "/wallet" then VArr [VObj {[ "asset" := VStr "USD" ]}]
  else if String.eqb path "/trades" then VArr []
  else if String.eqb path "/strategies/start" || String.eqb path "/strategies/stop" then
    VObj {[ "success" := VBool true; "message" := VStr "ok" ]}
  else VObj {[ "price" := VNum 1 ]}.

(** A backend that answers every request but those to the paths in
    [down], which fail at the network level. *)
Definition backend (down : list string) : network :=
  fun r =>
    if existsb (String.eqb (endpoint r)) down
    then FetchRejects (JsError "TypeError" "Failed to fetch")
    else FetchResponds true 200 (Fulfilled "") (Fulfilled (sample_payload (endpoint r))).

(** A cycle during which the backend does not change and the component
    stays mounted. *)
Definition steady (net : network) : cycle_env :=
  CycleEnv net net net net 1700000000000 (fun _ => false).

(** A dashboard that has synchronised before. *)
Definition synced : dashboard :=
  setConnectionStatus connected
    (setAccountData (Account (VNum 100) (VArr [VObj {[ "asset" := VStr "USD" ]}]))
       (setStrategies (VObj {[ "BTCUSD" := VObj {[ "running" := VBool true ]} ]}) initial)).

(** A backend whose strategy list answers with [success: false]. *)
Definition refusing_strategies : network :=
  fun r =>
    if String.eqb (endpoint r) "/strategies/available"
    then FetchResponds true 200 (Fulfilled "") (Fulfilled (VObj {[ "success" := VBool false ]}))
    else backend [] r.

End TradingDashboard.

(** ** The alert panel ([AlertsPanel]) *)

Module AlertsPanel.

Inductive alert_type := error | warning | success | info.
Inductive alert_priority := high | medium | low.

Record alert := Alert {
  id : string;
  type : alert_type;
  symbol : value;
  title : string;
  message : value;
  timestamp : Z;
  priority : alert_priority
}.

(** [existingIds.includes(alert.id)] *)
Definition includes (ids : list string) (x : string) : bool :=
  existsb (String.eqb x) ids.

(** The order [Array.prototype.sort] establishes with the comparator
    [(a, b) => b.timestamp - a.timestamp]. *)
Definition newer_first (a b : alert) : Prop := (timestamp b <= timestamp a)%Z.

Global Instance newer_first_dec a b : Decision (newer_first a b).
Proof. unfold newer_first. apply _. Defined.

(** The updater passed to [setAlerts]. *)
Definition merge (currentTime : Z) (newAlerts prevAlerts : list alert) : list alert :=
  let existingIds := map id prevAlerts in
  let uniqueNewAlerts := filter (fun a => negb (includes existingIds (id a)) = true) newAlerts in
  let dayAgo := (currentTime - 24 * 60 * 60 * 1000)%Z in
  merge_sort newer_first
    (filter (fun a => (dayAgo < timestamp a)%Z) (prevAlerts ++ uniqueNewAlerts)).

Definition dismissAlert (alertId : string) (prev : list alert) : list alert :=
  filter (fun a => id a ≠ alertId) prev.

Definition clearAllAlerts (prev : list alert) : list alert := [].

Section Derivation.

(** Platform functions the effect calls: [parseFloat], the rendering
    [x.toFixed(1)], and [new Date(v).getTime()], which is [None] for an
    invalid date ([NaN]). *)
Variable parseFloat : value -> float.
Variable toFixed1 : float -> string.
Variable getTime : value -> option Z.

(** The alerts of one entry of [strategies]; [None] when reading
    [strategy.running] throws.  Timestamps are integers below [2^53], so
    [(currentTime - startTime) / (1000 * 60 * 60) > 24] on doubles is the
    integer comparison with 24 hours, and [Math.floor] of the quotient is
    the integer quotient. *)
Definition strategy_alerts (currentTime : Z) (symbol : string) (strategy : value)
    : option (list alert) :=
  if is_nullish strategy then None
  else if truthy (js_get strategy "running") then
    let on_error :=
      if truthy (js_get strategy "error") then
        [Alert (symbol +:+ "-error") error (VStr symbol) "Strategy Error"
           (js_get strategy "error") currentTime high]
      else [] in
    let on_longtime :=
      if truthy (js_get strategy "start_time") then
        match getTime (js_get strategy "start_time") with
        | Some startTime =>
            if (24 * (1000 * 60 * 60) <? currentTime - startTime)%Z then
              [Alert (symbol +:+ "-longtime") warning (VStr symbol) "Long Running Strategy"
                 (VStr ("Strategy running for "
                        +:+ pretty ((currentTime - startTime) / (1000 * 60 * 60))%Z
                        +:+ "h without trades"))
                 currentTime low]
            else []
        | None => []
        end
      else [] in
    Some (on_error ++ on_longtime)
  else Some [].

(** The alerts of [positions[index]]; [None] when reading
    [position.unrealized_pnl] throws. *)
Definition position_alerts (currentTime : Z) (index : nat) (position : value)
    : option (list alert) :=
  if is_nullish position then None
  else
    let pnl := parseFloat (js_or (js_get position "unrealized_pnl") (VNum 0)) in
    let margin := parseFloat (js_or (js_get position "margin") (VNum 0)) in
    if PrimFloat.ltb 0 margin then
      let pnlPercent := PrimFloat.mul (PrimFloat.div pnl margin) 100 in
      if PrimFloat.ltb 50 pnlPercent then
        Some [Alert ("pos-" +:+ pretty index +:+ "-profit") success
                (js_get position "symbol") "High Profit Position"
                (VStr ("Position up " +:+ toFixed1 pnlPercent
                       +:+ "% - Consider taking profits"))
                currentTime medium]
      else if PrimFloat.ltb pnlPercent (-20) then
        Some [Alert ("pos-" +:+ pretty index +:+ "-loss") warning
                (js_get position "symbol") "Position At Loss"
                (VStr ("Position down " +:+ toFixed1 (PrimFloat.abs pnlPercent)
                       +:+ "% - Monitor closely"))
                currentTime high]
      else Some []
    else Some [].

(** [newAlerts] as the effect builds it from its two props; [positions]
    is an array or absent.  The finite map does not keep the insertion
    order of [strategies]; every alert of one run carries the same
    timestamp. *)
Definition newAlerts (currentTime : Z) (strategies : value)
    (positions : option (list value)) : option (list alert) :=
  from_strategies ←
    mapM (fun '(symbol, strategy) => strategy_alerts currentTime symbol strategy)
         (map_to_list (own_props (js_or strategies (VObj ∅))));
  from_positions ←
    mapM (fun '(index, position) => position_alerts currentTime index position)
         (imap pair (default [] positions));
  Some (concat from_strategies ++ concat from_positions).

(** What happens to the [alerts] state: the effect runs at some time
    with some props, or the user dismisses or clears.  When the
    derivation throws, [setAlerts] is not reached. *)
Inductive action :=
| Effect (currentTime : Z) (strategies : value) (positions : option (list value))
| Dismiss (alertId : string)
| ClearAll.

Definition apply (a : action) (alerts : list alert) : list alert :=
  match a with
  | Effect currentTime strategies positions =>
      match newAlerts currentTime strategies positions with
      | Some derived => merge currentTime derived alerts
      | None => alerts
      end
  | Dismiss alertId => dismissAlert alertId alerts
  | ClearAll => clearAllAlerts alerts
  end.

Definition history (actions : list action) : list alert :=
  foldl (fun alerts a => apply a alerts) [] actions.

End Derivation.

Definition sorted_desc (alerts : list alert) : Prop := StronglySorted newer_first alerts.

Definition unique_ids (alerts : list alert) : Prop := NoDup (map id alerts).

Definition within_24h (currentTime : Z) (alerts : list alert) : Prop :=
  Forall (fun a => (currentTime - 24 * 60 * 60 * 1000 < timestamp a)%Z) alerts.

(** The shape of the ids the derivation builds: the rule and the symbol or
    position index it fired for. *)
Inductive key :=
| KError (symbol : string)
| KLongtime (symbol : string)
| KProfit (index : nat)
| KLoss (index : nat).

Definition render (k : key) : string :=
  match k with
  | KError symbol => symbol +:+ "-error"
  | KLongtime symbol => symbol +:+ "-longtime"
  | KProfit index => "pos-" +:+ pretty index +:+ "-profit"
  | KLoss index => "pos-" +:+ pretty index +:+ "-loss"
  end.

Definition last_char (s : string) : option Ascii.ascii :=
  last (String.list_ascii_of_string s).

(** The entry of [strategies] or of [positions] a key comes from. *)
Definition owner (k : key) : string + nat :=
  match k with
  | KError symbol | KLongtime symbol => inl symbol
  | KProfit index | KLoss index => inr index
  end.

(** [parseFloat] on the values used in the samples: a number is itself,
    anything else is [NaN]. *)
Definition sample_parseFloat (v : value) : float :=
  match v with VNum x => x | _ => PrimFloat.nan end.

(** The position of the specification's scenario. *)
Definition sample_position : value :=
  VObj {[ "symbol" := VStr "BTCUSD"; "margin" := VNum 100; "unrealized_pnl" := VNum 60 ]}.

End AlertsPanel.

(** ** The dashboard between cycles: polls, screens and what the state obeys *)

Module DashboardState.
Import APIService TradingDashboard.

(** The guard of the 5 s refresh interval: the light poll starts
    [fetchStrategiesStatus] and [fetchMarketData] only when it holds. *)
Definition light_poll_due (st : dashboard) : bool :=
  isMounted st && negb (fetchInProgress st) &&
  match connectionStatus st with connected => true | _ => false end.

(** The guard of the 10 s status interval, which exists only while the
    status is [connected]. *)
Definition status_poll_due (st : dashboard) : bool :=
  match connectionStatus st with
  | connected => isMounted st && negb (fetchInProgress st)
  | _ => false
  end.

(** The connection status a cycle has established when it waits at [p]. *)
Definition phase_status (p : phase) : connection :=
  match p with
  | AwaitStrategies | AwaitBasic => connecting
  | AwaitMarket _ | AwaitAdditional _ _ _ => connected
  end.

(** What the flags and the status of a mounted component obey. *)
Definition coherent (w : world) : Prop :=
  isMounted (dash w) = true →
  (fetchInProgress (dash w) = true ↔ cycles w ≠ []) ∧
  (loading (dash w) = true → cycles w ≠ []) ∧
  (∀ p, p ∈ cycles w → connectionStatus (dash w) = phase_status p) ∧
  (cycles w = [] →
     connectionStatus (dash w) = connected ∨ connectionStatus (dash w) = conn_error).

(** The user picks symbols with the buttons of the selector, one per
    tracked symbol. *)
Definition from_selector (e : event) : Prop :=
  match e with
  | EvSelectSymbol symbol => symbol ∈ TRACKED_SYMBOLS
  | _ => True
  end.

Definition reconnects_tracked (t : timer) : Prop :=
  match callback t with
  | CbReconnect symbol _ => symbol ∈ TRACKED_SYMBOLS
  | CbRefresh => True
  end.

(** Every key of [marketData], the selected symbol and every symbol a socket
    or a reconnect was created for is a tracked symbol. *)
Definition tracked_only (w : world) : Prop :=
  dom (marketData (dash w)) ⊆ list_to_set (C := gset string) TRACKED_SYMBOLS ∧
  selectedSymbol (dash w) ∈ TRACKED_SYMBOLS ∧
  Forall (fun s => ws_symbol s ∈ TRACKED_SYMBOLS) (sockets w) ∧
  Forall reconnects_tracked (timers w).

(** The two slices the feed and the polls share. *)
Definition snapshot (st : dashboard) : string * gmap string value :=
  (selectedSymbol st, marketData st).

Definition is_ws_message (e : event) : bool :=
  match e with EvWsMessage _ _ => true | _ => false end.

End DashboardState.

(** ** What the alert panel shows *)

Module AlertsView.
Import AlertsPanel.

Section Rendering.

(** [new Date(timestamp).toLocaleDateString()], the platform's rendering. *)
Variable toLocaleDateString : Z -> string.

(** [formatTimestamp], called with the clock [now = Date.now()].  The
    differences it divides are below 24 hours, where [Math.floor] of the
    quotient on doubles is the integer quotient. *)
Definition formatTimestamp (now timestamp : Z) : string :=
  let diff := (now - timestamp)%Z in
  if (diff <? 60000)%Z then "Just now"
  else if (diff <? 3600000)%Z then pretty (diff / 60000)%Z +:+ "m ago"
  else if (diff <? 86400000)%Z then pretty (diff / 3600000)%Z +:+ "h ago"
  else toLocaleDateString timestamp.

End Rendering.

(** [showAll ? alerts : alerts.slice(0, 5)] *)
Definition displayedAlerts (showAll : bool) (alerts : list alert) : list alert :=
  if showAll then alerts else take 5 alerts.

(** The pairs of type and priority the four rules give their alerts. *)
Definition rule_outcome (a : alert) : Prop :=
  (type a = error ∧ priority a = high) ∨ (type a = warning ∧ priority a = low) ∨
  (type a = success ∧ priority a = medium) ∨ (type a = warning ∧ priority a = high).

Global Instance alert_type_eq_dec : EqDecision alert_type.
Proof. solve_decision. Defined.

Global Instance alert_priority_eq_dec : EqDecision alert_priority.
Proof. solve_decision. Defined.

(** The counters of the summary: [alerts.filter(a => a.type === t).length]
    and [alerts.filter(a => a.priority === 'high').length]. *)
Definition count_type (t : alert_type) (alerts : list alert) : nat :=
  length (filter (fun a => type a = t) alerts).

Definition count_high (alerts : list alert) : nat :=
  length (filter (fun a => priority a = high) alerts).

(** [alerts.some(alert => alert.priority === 'high')] *)
Definition hasHighPriority (alerts : list alert) : bool :=
  existsb (fun a => bool_decide (priority a = high)) alerts.

(** The props the dashboard gives the panel: it passes [symbol],
    [strategy] and [onClearAlerts], so the panel's [strategies] and
    [positions] are [undefined]. *)
Definition from_dashboard (a : action) : Prop :=
  match a with
  | Effect _ strategies positions => strategies = VUndef ∧ positions = None
  | Dismiss _ | ClearAll => True
  end.

(** Sample platform functions and a sample alert. *)
Definition sample_toFixed1 (x : float) : string := "60.0".

Definition sample_getTime (v : value) : option Z := None.

Definition sample_alert (t : Z) : alert :=
  Alert "pos-0-profit" success (VStr "BTCUSD") "High Profit Position"
    (VStr "Position up 60.0% - Consider taking profits") t medium.

End AlertsView.

(** ** The position monitor ([PositionMonitor]) *)

Module PositionMonitor.
Import APIService.

Record monitor := Monitor {
  positions : list value;
  loading : bool;
  error : option string
}.

Definition initial : monitor := Monitor [] false None.

Section Coercion.

(** [ToNumber], which [Math.abs] applies to its argument. *)
Variable toNumber : value -> float.

(** [Math.abs(pos.size || 0) > 0]; [None] when reading [pos.size] throws. *)
Definition open_size (pos : value) : option bool :=
  if is_nullish pos then None
  else Some (PrimFloat.ltb 0 (PrimFloat.abs (toNumber (js_or (js_get pos "size") (VNum 0))))).

(** [data.filter(pos => Math.abs(pos.size || 0) > 0)] *)
Fixpoint open_positions (data : list value) : option (list value) :=
  match data with
  | [] => Some []
  | pos :: rest =>
      match open_size pos, open_positions rest with
      | Some keep, Some shown => Some (if keep then pos :: shown else shown)
      | _, _ => None
      end
  end.

(** [fetchPosition] up to its [await]; [None]: there is no symbol and the
    call returns at once. *)
Definition fetchPosition_enter (symbol : string) (m : monitor) : option monitor :=
  if String.eqb symbol "" then None
  else Some (Monitor (positions m) true None).

(** [fetchPosition] after its [await], in the state the component has
    when the call settles. *)
Definition fetchPosition_settle (data : settled value) (m : monitor) : monitor :=
  let failed (err : js_error) := Monitor [] false (Some (err_message err)) in
  match data with
  | Rejected err => failed err
  | Fulfilled (VArr data) =>
      match open_positions data with
      | Some shown => Monitor shown false (error m)
      | None => failed typeError
      end
  | Fulfilled data =>
      if truthy data && negb (size (own_props data) =? 0)%nat &&
         default false (open_size data)
      then Monitor [data] false (error m)
      else Monitor [] false (error m)
  end.

(** One call from entry to end. *)
Definition fetchPosition (net : network) (symbol : string) (m : monitor) : monitor :=
  match fetchPosition_enter symbol m with
  | None => m
  | Some m => fetchPosition_settle (getPositions net symbol) m
  end.

End Coercion.

(** What the component renders. *)
Inductive screen := LoadingScreen | ErrorScreen (msg : string) | EmptyState | PositionList.

Definition render (m : monitor) : screen :=
  let list := match positions m with [] => EmptyState | _ => PositionList end in
  if loading m && (length (positions m) =? 0)%nat then LoadingScreen
  else match error m with
       | Some msg => if String.eqb msg "" then list else ErrorScreen msg
       | None => list
       end.

(** [ToNumber] on the values used in the samples: a number is itself,
    anything else is [NaN]. *)
Definition sample_toNumber (v : value) : float :=
  match v with VNum x => x | _ => PrimFloat.nan end.

End PositionMonitor.

(** ** The grid bot panel ([GridBotPanel]) *)

Module GridBotPanel.
Import APIService TradingDashboard.

Record grid_config := GridConfig {
  grid_type : string;
  gridLevels : float;
  investmentAmount : float;
  upperPrice : float;
  lowerPrice : float;
  perGridAmount : float;
  stopLoss : float
}.


Record panel := Panel {
  tradingMode : string;
  gridPreset : string;
  gridConfig : grid_config;
  loading : bool;
  message : string
}.


(** [{ ...gridConfig, preset: gridPreset }] *)
Definition gridConfig_value (p : panel) : value :=
  let c := gridConfig p in
  VObj {[ "type" := VStr (grid_type c);
          "gridLevels" := VNum (gridLevels c);
          "investmentAmount" := VNum (investmentAmount c);
          "upperPrice" := VNum (upperPrice c);
          "lowerPrice" := VNum (lowerPrice c);
          "perGridAmount" := VNum (perGridAmount c);
          "stopLoss" := VNum (stopLoss c);
          "preset" := VStr (gridPreset p) ]}.

(** The [config] handed to [onStartStrategy]. *)
Definition start_config (p : panel) : value :=
  VObj {[ "strategy_name" := VStr "GridBot_Strategy";
          "tradingMode" := VStr (tradingMode p);
          "gridConfig" := gridConfig_value p ]}.

Section Wiring.

(** [ToNumber], applied to [accountBalance] by the product, and
    [ToString], applied to [result.message] by the template literal. *)
Variable toNumber : value -> float.
Variable toString : value -> string.

(** The two checks of [handleStart]; [Some msg]: the start is refused.
    The factor is the double [0.8]. *)
Definition validate (accountBalance : value) (c : grid_config) : option string :=
  if PrimFloat.ltb (PrimFloat.mul (toNumber accountBalance) 0x1.999999999999ap-1) (investmentAmount c)
  then Some "❌ Investment amount too high (max 80% of balance)"
  else if PrimFloat.leb (upperPrice c) (lowerPrice c)
  then Some "❌ Upper price must be higher than lower price"
  else None.

(** The message set from what the awaited handler settled to. *)
Definition report (done : string) (result : settled value) : string :=
  match result with
  | Fulfilled result =>
      if is_nullish result then "❌ Error: " +:+ err_message typeError
      else if truthy (js_get result "success") then done
      else "❌ " +:+ toString (js_get result "message")
  | Rejected error => "❌ Error: " +:+ err_message error
  end.

Definition settle (msg : string) (p : panel) : panel :=
  Panel (tradingMode p) (gridPreset p) (gridConfig p) false msg.

(** [handleStart] for a handler [onStartStrategy] that settles to a value
    and has an effect [E] on its owner; [None]: the handler is not called. *)
Definition handleStart {E} (onStartStrategy : string -> value -> E * settled value)
    (symbol : string) (accountBalance : value) (p : panel) : panel * option E :=
  match validate accountBalance (gridConfig p) with
  | Some msg => (settle msg p, None)
  | None =>
      let '(e, result) := onStartStrategy symbol (start_config p) in
      (settle (report "✅ Grid Bot started!" result) p, Some e)
  end.

Definition handleStop {E} (onStopStrategy : string -> E * settled value)
    (symbol : string) (p : panel) : panel * E :=
  let '(e, result) := onStopStrategy symbol in
  (settle (report "✅ Grid Bot stopped!" result) p, e).

(** The panel as [getStrategyPanel] mounts it: the symbol is the selected
    one, the balance is [accountData.balance || 0] and the handlers are the
    dashboard's, which never reject. *)
Definition accountBalance (st : dashboard) : value :=
  js_or (balance (accountData st)) (VNum 0).

Definition onStartStrategy (net : network) (st : dashboard) (symbol : string) (config : value)
    : (dashboard * list timer) * settled value :=
  let '(st, ts, result) := handleStartStrategy net symbol config st in
  ((st, ts), Fulfilled result).

Definition onStopStrategy (net : network) (st : dashboard) (symbol : string)
    : (dashboard * list timer) * settled value :=
  let '(st, ts, result) := handleStopStrategy net symbol st in
  ((st, ts), Fulfilled result).

Definition start_from_dashboard (net : network) (st : dashboard) (p : panel)
    : panel * option (dashboard * list timer) :=
  handleStart (onStartStrategy net st) (selectedSymbol st) (accountBalance st) p.

Definition stop_from_dashboard (net : network) (st : dashboard) (p : panel)
    : panel * (dashboard * list timer) :=
  handleStop (onStopStrategy net st) (selectedSymbol st) p.

End Wiring.

(** A panel whose prices have been computed for a mark price of 100, with
    an investment the balance of [synced] covers. *)
Definition sample_panel : panel :=
  Panel "Auto" "Balanced" (GridConfig "Arithmetic" 12 50 115 85 4.25 10) false "".

(** [ToString] on the values used in the samples. *)
Definition sample_toString (v : value) : string :=
  match v with VStr s => s | _ => "undefined" end.

End GridBotPanel.

(** * Properties *)

(** ** The API client *)

Section APIServiceFacts.
Import APIService.

Lemma recover_fulfilled {A} (p : settled A) (fb : A) : ∃ v, recover p fb = Fulfilled v.
Proof. destruct p; simpl; eauto. Qed.

Lemma recover_rejected {A} (p : settled A) (fb : A) e :
  p = Rejected e → recover p fb = Fulfilled fb.
Proof. by intros ->. Qed.

Lemma rethrow_id {A} (p : settled A) : rethrow p = p.
Proof. by destruct p. Qed.

(** Every wrapper with a fallback is [recover] around its one request. *)
Lemma invoke_fallback net c fb :
  fallback c = Some fb → invoke net c = recover (request net (request_of c)) fb.
Proof. destruct c; simpl; intros [= <-]; reflexivity. Qed.

Lemma invoke_propagating net c :
  propagating c = true → invoke net c = request net (request_of c).
Proof.
  destruct c; simpl; intros H; try discriminate H;
    unfold getAvailableStrategies, getCandles; rewrite ?rethrow_id; reflexivity.
Qed.

Lemma request_offline r : request offline r = Rejected (JsError "TypeError" "Failed to fetch").
Proof. reflexivity. Qed.

Lemma request_answering v r : request (answering v) r = Fulfilled v.
Proof. reflexivity. Qed.

(** C10: the wrappers [getAllStrategiesStatus], [getWallet], [getMarketData],
    [getPositions], [getTrades], [getTradeStats] and [getSystemHealth] (the
    calls with a [fallback]) never reject: whatever the network does they
    fulfil, and when the underlying request fails they fulfil with their
    fixed fallback ([{}], [[]] or the synthetic unhealthy object), which is
    also what they return when the backend answers with that very value, so
    the caller cannot tell the two apart.  A call can reject if and only if
    it is one of [request], [getAvailableStrategies], [getHealth],
    [startStrategy], [stopStrategy], [getCandles], and those hand the
    result of the request to the caller unchanged. *)
Theorem api_wrappers_swallow_failures :
  (∀ net c fb, fallback c = Some fb →
     (∃ v, invoke net c = Fulfilled v) ∧
     (∀ e, request net (request_of c) = Rejected e →
        invoke net c = Fulfilled fb ∧
        ∃ net', request net' (request_of c) = Fulfilled fb ∧ invoke net' c = invoke net c)) ∧
  (∀ c, is_Some (fallback c) ↔
     ∃ s, c ∈ [CallGetAllStrategiesStatus; CallGetWallet; CallGetMarketData s;
               CallGetPositions s; CallGetTrades; CallGetTradeStats; CallGetSystemHealth]) ∧
  (∀ c, propagating c = true ↔ ∃ net e, invoke net c = Rejected e) ∧
  (∀ net c, propagating c = true → invoke net c = request net (request_of c)).
Proof.
  split; [|split; [|split]].
  - intros net c fb Hfb. rewrite (invoke_fallback _ _ _ Hfb). split.
    + apply recover_fulfilled.
    + intros e He. split; [by apply (recover_rejected _ _ e)|].
      exists (answering fb). rewrite (invoke_fallback _ _ _ Hfb).
      rewrite request_answering, He. done.
  - intros c. split.
    + intros [fb Hfb]. destruct c; simpl in Hfb; try discriminate Hfb;
        try (exists ""; set_solver); try (exists symbol; set_solver).
    + intros [s Hs]. repeat (apply elem_of_cons in Hs as [->|Hs]); simpl; eauto.
      by apply elem_of_nil in Hs.
  - intros c. split.
    + intros Hp. exists offline, (JsError "TypeError" "Failed to fetch").
      rewrite (invoke_propagating _ _ Hp). apply request_offline.
    + intros (net & e & He). destruct (propagating c) eqn:Hp; [done|].
      destruct c; simpl in Hp; try discriminate Hp;
        unfold invoke, getAllStrategiesStatus, getWallet, getMarketData, getPositions,
          getTrades, getTradeStats, getSystemHealth, getSMCAnalysis in He;
        match type of He with recover ?p ?fb = _ => destruct (recover_fulfilled p fb) as [v Hv] end;
        congruence.
  - apply invoke_propagating.
Qed.

End APIServiceFacts.

(** ** The sync cycle *)

(** Unfolding of the cycle's steps and of the guarded setters. *)
Ltac unfold_cycle :=
  unfold TradingDashboard.resume, TradingDashboard.after_strategies,
    TradingDashboard.after_basic, TradingDashboard.after_market,
    TradingDashboard.after_additional, TradingDashboard.fetchData_complete,
    TradingDashboard.fetchData_throw, TradingDashboard.fetchData_finally,
    TradingDashboard.fetchData_catch, TradingDashboard.fetchAvailableStrategies,
    TradingDashboard.fetchPositionData, TradingDashboard.fetchTradeData,
    TradingDashboard.fetchSystemHealth, TradingDashboard.fetchStrategiesStatus,
    TradingDashboard.fetchMarketData, TradingDashboard.fetchWalletData,
    TradingDashboard.handle_control, TradingDashboard.onmessage,
    TradingDashboard.safeSetState, TradingDashboard.safeUpdate in *.

Ltac crush_refs :=
  unfold_cycle; cbn; intros; repeat case_match; simplify_eq; cbn in *; auto.

Section SyncCycleFacts.
Import APIService TradingDashboard.

(** Resuming a cycle never touches [isMounted]; it leaves [fetchInProgress]
    alone while the cycle stays suspended and clears it when the cycle ends. *)
Lemma resume_refs p r st st' pr :
  resume p r st = (st', pr) →
  isMounted st' = isMounted st ∧
  match pr with
  | Suspended _ => fetchInProgress st' = fetchInProgress st
  | Finished _ => fetchInProgress st' = false
  end.
Proof. destruct st, r as [[] net now], p; crush_refs. Qed.

Lemma fetchData_refs st st' p :
  fetchData st = (st', p) →
  isMounted st' = isMounted st ∧
  match p with
  | Some _ => isMounted st = true ∧ fetchInProgress st = false ∧ fetchInProgress st' = true
  | None => st' = st
  end.
Proof.
  unfold fetchData. destruct st; crush_refs;
    match goal with H : _ || _ = false |- _ => apply orb_false_iff in H as [? ?] end;
    simplify_eq; auto.
Qed.

Lemma fetchData_dropped st :
  isMounted st = false ∨ fetchInProgress st = true → fetchData st = (st, None).
Proof. unfold fetchData. intros [-> | ->]; by rewrite ?orb_true_r. Qed.

Lemma handle_control_refs result st :
  isMounted (handle_control result st).1.1 = isMounted st ∧
  fetchInProgress (handle_control result st).1.1 = fetchInProgress st.
Proof. destruct st, result; crush_refs. Qed.

Lemma fetchStrategiesStatus_refs net st :
  isMounted (fetchStrategiesStatus net st) = isMounted st ∧
  fetchInProgress (fetchStrategiesStatus net st) = fetchInProgress st.
Proof. destruct st; crush_refs. Qed.

Lemma fetchMarketData_refs net st :
  isMounted (fetchMarketData net st) = isMounted st ∧
  fetchInProgress (fetchMarketData net st) = fetchInProgress st.
Proof. destruct st; crush_refs. Qed.

Lemma onmessage_refs symbol data st :
  isMounted (onmessage symbol data st) = isMounted st ∧
  fetchInProgress (onmessage symbol data st) = fetchInProgress st.
Proof. destruct st, data; crush_refs. Qed.

Lemma call_fetchData_single w : single_cycle w → single_cycle (call_fetchData w).
Proof.
  intros [Hlen Hflag]. unfold call_fetchData.
  destruct (fetchData (dash w)) as [st p] eqn:E.
  apply fetchData_refs in E as [Hm Hp]. destruct p as [p|]; simpl in *.
  - destruct Hp as (Hmount & Hfree & Hset).
    destruct (cycles w) as [|c cs] eqn:Ec.
    + split; simpl; [lia | auto].
    + destruct Hflag as [?|?]; [done | congruence | congruence].
  - subst st. rewrite app_nil_r. split; simpl; auto.
Qed.

Lemma call_fetchData_noop w :
  single_cycle w → cycles w ≠ [] → call_fetchData w = w.
Proof.
  intros [_ Hflag] Hne. unfold call_fetchData.
  rewrite fetchData_dropped by (destruct (Hflag Hne); auto).
  rewrite app_nil_r. by destruct w.
Qed.

(** The invariant only reads the suspended cycles and the two refs. *)
Lemma single_cycle_frame w w' :
  cycles w' = cycles w →
  isMounted (dash w') = isMounted (dash w) →
  fetchInProgress (dash w') = fetchInProgress (dash w) →
  single_cycle w → single_cycle w'.
Proof. unfold single_cycle. by intros -> -> ->. Qed.

Lemma close_current_frame w :
  dash (close_current w) = dash w ∧ cycles (close_current w) = cycles w.
Proof. unfold close_current. by destruct (wsRef w). Qed.

Lemma step_single_cycle e w : single_cycle w → single_cycle (step e w).
Proof.
  intros Hinv. pose proof Hinv as [Hlen Hflag]. destruct e; simpl.
  - by apply call_fetchData_single.
  - destruct (isMounted (dash w)) eqn:Hm; [|done].
    apply call_fetchData_single.
    eapply single_cycle_frame; [..|exact Hinv]; simpl;
      unfold safeSetState; rewrite ?Hm; done.
  - destruct (isMounted (dash w)); [|done]. done.
  - destruct (_ && _); [|done].
    destruct (close_current_frame (with_dash (setSelectedSymbol symbol (dash w)) w))
      as [Hd Hc].
    eapply single_cycle_frame; [..|exact Hinv]; simpl; rewrite ?Hd, ?Hc; done.
  - destruct (cycles w !! i) as [p|] eqn:Hi; [|done].
    destruct (resume p r (dash w)) as [st pr] eqn:E.
    apply resume_refs in E as [Hm Hp].
    destruct (cycles w) as [|c [|c' cs]] eqn:Ec; simpl in Hlen; [done | | lia].
    destruct i; [|done]. simpl in Hi. simplify_eq.
    destruct pr; simpl; (split; simpl; [lia|]); [|done].
    intros _. destruct Hflag as [H|H]; [done | left | right]; congruence.
  - destruct (handle_control result (dash w)) as [[st ts] v] eqn:E.
    pose proof (handle_control_refs result (dash w)) as [Hm Hf]. rewrite E in Hm, Hf.
    by eapply single_cycle_frame; [..|exact Hinv].
  - eapply single_cycle_frame; [..|exact Hinv]; simpl; [done|..];
      apply fetchStrategiesStatus_refs.
  - eapply single_cycle_frame; [..|exact Hinv]; simpl; [done|..];
      apply fetchMarketData_refs.
  - destruct (timers w !! i) as [t|]; [|done].
    destruct (callback t); simpl.
    + destruct (isMounted (dash w)) eqn:Hm; [|done].
      by apply call_fetchData_single.
    + done.
  - destruct (sockets w !! i) as [[s g []]|]; done.
  - destruct (sockets w !! i) as [[s g []]|]; try done.
    eapply single_cycle_frame; [..|exact Hinv]; simpl; [done|..]; apply onmessage_refs.
  - destruct (sockets w !! i) as [[s g []]|]; done.
  - done.
  - destruct (isMounted (dash w)); [|done].
    destruct (close_current_frame w) as [Hd Hc].
    split; simpl; rewrite ?Hc, ?Hd; [done|]. intros _. right. by destruct (dash w).
Qed.

Lemma mounted_single_cycle : single_cycle mounted.
Proof. split; simpl; [lia | auto]. Qed.

Lemma run_single_cycle evs w : single_cycle w → single_cycle (run evs w).
Proof.
  revert w. induction evs as [|e evs IH]; intros w Hw; simpl; [done|].
  apply IH. by apply step_single_cycle.
Qed.

(** The phase a suspended cycle moves to. *)
Lemma resume_progress p r st st' p' :
  resume p r st = (st', Suspended p') →
  match p, settles r with
  | AwaitStrategies, Main => p' = AwaitBasic
  | AwaitBasic, Main => ∃ issued, p' = AwaitMarket issued
  | AwaitMarket _, Main => p' = AwaitAdditional true true true
  | AwaitAdditional _ b c, Positions => p' = AwaitAdditional false b c ∧ b || c = true
  | AwaitAdditional a _ c, Trades => p' = AwaitAdditional a false c ∧ a || c = true
  | AwaitAdditional a b _, SystemHealth => p' = AwaitAdditional a b false ∧ a || b = true
  | _, _ => p' = p
  end.
Proof.
  destruct st, r as [[] net now], p; unfold_cycle; cbn; intros;
    repeat case_match; simplify_eq; cbn in *; eauto;
    repeat match goal with b : bool |- _ => destruct b end; auto.
Qed.

(** Once the awaited promises have settled, a started cycle has ended. *)
Lemma drive_script_finishes env st :
  ∃ o, (drive (script env) AwaitStrategies st).2 = Finished o.
Proof.
  unfold script. cbn [drive].
  repeat
    (match goal with
     | |- context [resume ?p ?r ?s] =>
         let E := fresh "E" in
         destruct (resume p r s) as [? [?|?]] eqn:E; [|simpl; eauto];
         apply resume_progress in E; cbn in E
     end;
     repeat match goal with
            | H : ∃ _, _ |- _ => destruct H as [? H]
            | H : _ ∧ _ |- _ => destruct H as [H ?]
            end; subst).
  all: simpl in *; try discriminate.
Qed.

Lemma drive_finished_clears_flag script p st st' o :
  drive script p st = (st', Finished o) → fetchInProgress st' = false.
Proof.
  revert p st. induction script as [|[torn r] rest IH]; intros p st; simpl; [done|].
  destruct (resume p r (await torn st)) as [st1 [p1|o1]] eqn:E.
  - apply IH.
  - intros [= <- <-]. by apply resume_refs in E as [_ ?].
Qed.

(** C1: calling [fetchData] while a cycle is active changes nothing, starts
    no second cycle and raises no error, so in every state the component
    can reach at most one cycle is active; and [fetchInProgress] is cleared
    whenever a cycle ends, whether it completed, failed or was torn down.
    A started cycle does end once its awaited promises have settled. *)
Theorem sync_cycle_is_non_reentrant :
  (∀ evs, (length (cycles (run evs mounted)) ≤ 1)%nat ∧
          (cycles (run evs mounted) ≠ [] →
           step EvFetchData (run evs mounted) = run evs mounted)) ∧
  (∀ st, fetchInProgress st = true → fetchData st = (st, None)) ∧
  (∀ p r st st' o, resume p r st = (st', Finished o) → fetchInProgress st' = false) ∧
  (∀ env st st' pr, run_cycle env st = (st', Some pr) →
     (∃ o, pr = Finished o) ∧ fetchInProgress st' = false).
Proof.
  split; [|split; [|split]].
  - intros evs. pose proof (run_single_cycle evs mounted mounted_single_cycle) as Hinv.
    split; [apply Hinv|]. intros Hne. by apply call_fetchData_noop.
  - intros st Hf. apply fetchData_dropped. by right.
  - intros p r st st' o E. by apply resume_refs in E as [_ ?].
  - intros env st st' pr. unfold run_cycle.
    destruct (fetchData st) as [st0 [p|]] eqn:E0; [|done].
    assert (p = AwaitStrategies) as ->.
    { unfold fetchData in E0. case_match; by simplify_eq. }
    destruct (drive_script_finishes env st0) as [o Ho].
    destruct (drive (script env) AwaitStrategies st0) as [st1 pr1] eqn:E1.
    simpl in Ho. intros [= <- <-]. subst pr1. split; [eauto|].
    by eapply drive_finished_clears_flag.
Qed.

(** *** One cycle of a component that stays mounted *)

(** The boolean [fetchAvailableStrategies] returns depends on the response
    only. *)
Lemma fetchAvailableStrategies_loaded response st st' :
  (fetchAvailableStrategies response st).2 = (fetchAvailableStrategies response st').2.
Proof. unfold fetchAvailableStrategies. repeat case_match; reflexivity. Qed.

Lemma fetchData_enters st :
  isMounted st = true → fetchInProgress st = false →
  ∃ st0, fetchData st = (st0, Some AwaitStrategies) ∧
    isMounted st0 = true ∧ retryCount st0 = retryCount st ∧
    strategies st0 = strategies st ∧ accountData st0 = accountData st ∧
    marketData st0 = marketData st ∧ error st0 = None.
Proof.
  intros Hm Hf. unfold fetchData. rewrite Hm, Hf. eexists; split; [reflexivity|].
  destruct st; simpl in *; subst; cbn. done.
Qed.

Lemma after_strategies_spec r st st' pr :
  isMounted st = true →
  after_strategies r st = (st', pr) →
  if (fetchAvailableStrategies (getAvailableStrategies (net r)) st).2 then
    pr = Suspended AwaitBasic ∧ isMounted st' = true ∧
    retryCount st' = retryCount st ∧ strategies st' = strategies st ∧
    accountData st' = accountData st ∧ marketData st' = marketData st ∧
    error st' = error st
  else
    pr = Finished Failed ∧ connectionStatus st' = conn_error ∧
    retryCount st' = S (retryCount st).
Proof.
  intros Hm. destruct st; simpl in Hm; subst. unfold_cycle; cbn.
  intros; repeat case_match; simplify_eq; cbn in *; rewrite ?Nat.add_1_r; auto 10.
Qed.

Lemma after_basic_spec r st st' pr :
  isMounted st = true →
  after_basic r st = (st', pr) →
  match getHealth (net r) with
  | Rejected _ =>
      pr = Finished Failed ∧ connectionStatus st' = conn_error ∧
      retryCount st' = S (retryCount st)
  | Fulfilled _ =>
      pr = Suspended (AwaitMarket true) ∧ isMounted st' = true ∧
      connectionStatus st' = connected ∧ retryCount st' = retryCount st ∧
      strategies st' =
        match getAllStrategiesStatus (net r) with
        | Fulfilled v => js_or v (VObj ∅)
        | Rejected _ => VObj ∅
        end ∧
      wallet (accountData st') =
        match getWallet (net r) with
        | Fulfilled v => js_or v (VArr [])
        | Rejected _ => wallet (accountData st)
        end ∧
      marketData st' = marketData st ∧ error st' = error st
  end.
Proof.
  intros Hm. destruct st; simpl in Hm; subst. unfold_cycle; unfold balance_updater; cbn.
  intros; repeat case_match; simplify_eq; cbn in *; rewrite ?Nat.add_1_r; auto 10.
Qed.

Lemma after_market_spec issued r st st' pr :
  isMounted st = true →
  after_market issued r st = (st', pr) →
  pr = Suspended (AwaitAdditional true true true) ∧ isMounted st' = true ∧
  connectionStatus st' = connectionStatus st ∧ retryCount st' = retryCount st ∧
  strategies st' = strategies st ∧ accountData st' = accountData st ∧
  error st' = error st ∧
  marketData st' =
    foldl (fun m '(symbol, data) => <[symbol := data]> m) ∅
      (map (market_result issued (net r)) TRACKED_SYMBOLS).
Proof.
  intros Hm. destruct st; simpl in Hm; subst. unfold_cycle; cbn.
  intros; simplify_eq; cbn. auto 10.
Qed.

(** The three additional fetchers write their own slices only; the end of
    the cycle resets the retry count. *)
Lemma after_additional_spec a b c r st st' pr :
  isMounted st = true →
  after_additional a b c r st = (st', pr) →
  isMounted st' = true ∧ connectionStatus st' = connectionStatus st ∧
  strategies st' = strategies st ∧ accountData st' = accountData st ∧
  error st' = error st ∧ marketData st' = marketData st ∧
  match pr with
  | Finished o => o = Completed ∧ retryCount st' = 0
  | Suspended _ => retryCount st' = retryCount st
  end.
Proof.
  intros Hm. destruct st, r as [[] n t]; simpl in Hm; subst. 
  all: unfold_cycle; cbn.
  all: intros; repeat case_match; simplify_eq; cbn in *; auto 10.
Qed.

Lemma resume_main p net now st :
  resume p (Resumption Main net now) st =
  match p with
  | AwaitStrategies => after_strategies (Resumption Main net now) st
  | AwaitBasic => after_basic (Resumption Main net now) st
  | AwaitMarket issued => after_market issued (Resumption Main net now) st
  | AwaitAdditional a b c => after_additional a b c (Resumption Main net now) st
  end.
Proof. by destruct p. Qed.

(** What a cycle does when the component is mounted, idle and stays
    mounted: it ends, and the state it leaves is determined by the two
    mandatory calls. *)
Lemma mounted_cycle_summary env st :
  isMounted st = true → fetchInProgress st = false → stays_mounted env →
  ∃ o, (run_cycle env st).2 = Some (Finished o) ∧
    let st' := (run_cycle env st).1 in
    if strategy_list_fails env st then
      o = Failed ∧ connectionStatus st' = conn_error ∧ retryCount st' = S (retryCount st)
    else
      match getHealth (net_basic env) with
      | Rejected _ =>
          o = Failed ∧ connectionStatus st' = conn_error ∧
          retryCount st' = S (retryCount st)
      | Fulfilled _ =>
          o = Completed ∧ connectionStatus st' = connected ∧ retryCount st' = 0 ∧
          error st' = None ∧
          strategies st' =
            match getAllStrategiesStatus (net_basic env) with
            | Fulfilled v => js_or v (VObj ∅)
            | Rejected _ => VObj ∅
            end ∧
          wallet (accountData st') =
            match getWallet (net_basic env) with
            | Fulfilled v => js_or v (VArr [])
            | Rejected _ => wallet (accountData st)
            end ∧
          marketData st' =
            foldl (fun m '(symbol, data) => <[symbol := data]> m) ∅
              (map (market_result true (net_market env)) TRACKED_SYMBOLS)
      end.
Proof.
  intros Hm Hf Hstay.
  destruct (fetchData_enters st Hm Hf) as (st0 & E0 & Hm0 & Hr0 & Hs0 & Ha0 & Hk0 & He0).
  unfold run_cycle, strategy_list_fails. rewrite E0.
  unfold script. rewrite !Hstay. cbn [drive await].
  rewrite (fetchAvailableStrategies_loaded _ st st0).
  rewrite resume_main.
  destruct (after_strategies _ st0) as [st1 pr1] eqn:E1.
  apply after_strategies_spec in E1; [|done]. cbn [net] in E1.
  destruct (fetchAvailableStrategies _ st0).2; cbn [negb].
  2: { destruct E1 as (-> & Hc & Hr). exists Failed. cbn. rewrite Hr, Hr0. auto. }
  destruct E1 as (-> & Hm1 & Hr1 & Hs1 & Ha1 & Hk1 & He1).
  rewrite resume_main.
  destruct (after_basic _ st1) as [st2 pr2] eqn:E2.
  apply after_basic_spec in E2; [|done]. cbn [net] in E2.
  destruct (getHealth (net_basic env)) as [h|reason].
  2: { destruct E2 as (-> & Hc & Hr). exists Failed. cbn. rewrite Hr, Hr1, Hr0. auto. }
  destruct E2 as (-> & Hm2 & Hc2 & Hr2 & Hs2 & Hw2 & Hk2 & He2).
  rewrite resume_main.
  destruct (after_market true _ st2) as [st3 pr3] eqn:E3.
  apply after_market_spec in E3 as (-> & Hm3 & Hc3 & Hr3 & Hs3 & Ha3 & He3 & Hk3); [|done].
  cbn [net] in Hk3.
  unfold resume; cbn [settles].
  destruct (after_additional true true true _ st3) as [st4 pr4] eqn:E4.
  pose proof E4 as P4. apply after_additional_spec in E4; [|done].
  destruct pr4 as [p4|o4].
  2: { unfold after_additional in P4. cbn in P4. by simplify_eq. }
  apply (resume_progress (AwaitAdditional true true true)) in P4 as [-> _].
  destruct E4 as (Hm4 & Hc4 & Hs4 & Ha4 & He4 & Hk4 & Hr4).
  destruct (after_additional false true true _ st4) as [st5 pr5] eqn:E5.
  pose proof E5 as P5. apply after_additional_spec in E5; [|done].
  destruct pr5 as [p5|o5].
  2: { unfold after_additional in P5. cbn in P5. by simplify_eq. }
  apply (resume_progress (AwaitAdditional false true true)) in P5 as [-> _].
  destruct E5 as (Hm5 & Hc5 & Hs5 & Ha5 & He5 & Hk5 & Hr5).
  destruct (after_additional false false true _ st5) as [st6 pr6] eqn:E6.
  pose proof E6 as P6. apply after_additional_spec in E6; [|done].
  destruct pr6 as [p6|o6].
  { apply (resume_progress (AwaitAdditional false false true)) in P6 as [_ ?]. done. }
  destruct E6 as (Hm6 & Hc6 & Hs6 & Ha6 & He6 & Hk6 & -> & Hr6).
  exists Completed. cbn. split; [done|].
  rewrite Hc6, Hc5, Hc4, Hc3, Hc2, Hr6, He6, He5, He4, He3, He2, He1, He0.
  rewrite Hs6, Hs5, Hs4, Hs3, Hs2, Ha6, Ha5, Ha4, Ha3, Hw2, Ha1, Ha0.
  rewrite Hk6, Hk5, Hk4, Hk3. done.
Qed.

(** [fetchAvailableStrategies] returns [false] exactly on the responses
    that are rejected or not usable, whatever the state. *)
Lemma fetchAvailableStrategies_result net st :
  (fetchAvailableStrategies (getAvailableStrategies net) st).2
  = negb (strategy_list_unavailable net).
Proof.
  unfold strategy_list_unavailable, getAvailableStrategies. rewrite rethrow_id.
  destruct (request net (GET "/strategies/available")) as [response|e]; [|done].
  unfold fetchAvailableStrategies, usable_strategy_list, js_and. cbn [forallb].
  rewrite negb_involutive.
  destruct (truthy response) eqn:Hr; [|by rewrite Hr]. cbn [andb].
  destruct (truthy (js_get response "success")); [|done]. cbn [andb].
  destruct (is_nullish (js_get response "result")); [done|]. cbn [andb negb].
  destruct (iterate (js_get (js_get response "result") "built_in")); [|done].
  destruct (iterate (js_get (js_get response "result") "discovered")); [|done].
  by destruct (iterate (js_get (js_get response "result") "current_directory")).
Qed.

Lemma strategy_list_fails_unavailable env st :
  strategy_list_fails env st = strategy_list_unavailable (net_strategies env).
Proof.
  unfold strategy_list_fails. by rewrite fetchAvailableStrategies_result, negb_involutive.
Qed.

Lemma health_check_fails_unreachable env :
  health_check_fails env = health_unreachable (net_basic env).
Proof. reflexivity. Qed.

(** The first step of a cycle, mounted or not. *)
Lemma after_strategies_outcome r st :
  (after_strategies r st).2
  = if strategy_list_unavailable (net r) then Finished Failed else Suspended AwaitBasic.
Proof.
  unfold after_strategies.
  pose proof (fetchAvailableStrategies_result (net r) st) as H.
  destruct (fetchAvailableStrategies _ st) as [st' loaded]. cbn in H. subst loaded.
  by destruct (strategy_list_unavailable (net r)).
Qed.

(** The second step takes the failure path only when the health request
    is rejected. *)
Lemma after_basic_failed r st :
  (after_basic r st).2 = Finished Failed → health_unreachable (net r) = true.
Proof.
  unfold after_basic, health_unreachable, getHealth.
  destruct (negb (isMounted st)); [done|].
  by destruct (request (net r) (GET "/health")).
Qed.

(** Past the mandatory calls no step takes the failure path. *)
Lemma resume_past_mandatory p r st :
  past_mandatory p = true →
  match (resume p r st).2 with
  | Finished o => o ≠ Failed
  | Suspended p' => past_mandatory p' = true
  end.
Proof.
  destruct st, r as [[] n t], p; try done; intros _;
    unfold_cycle; cbn; repeat case_match; simplify_eq; cbn in *; simplify_eq; done.
Qed.

Lemma drive_past_mandatory script p st :
  past_mandatory p = true → (drive script p st).2 ≠ Finished Failed.
Proof.
  revert p st. induction script as [|[torn r] rest IH]; intros p st Hp; cbn [drive]; [done|].
  pose proof (resume_past_mandatory p r (await torn st) Hp) as H.
  destruct (resume p r (await torn st)) as [st1 [p1|o1]]; cbn in H.
  - by apply IH.
  - cbn. congruence.
Qed.

Lemma drive_cons torn r rest p st :
  drive ((torn, r) :: rest) p st
  = match resume p r (await torn st) with
    | (st', Suspended p') => drive rest p' st'
    | (st', Finished o) => (st', Finished o)
    end.
Proof. cbn [drive]. by destruct (resume p r (await torn st)) as [st' [p'|o]]. Qed.

(** Whenever the component is unmounted during a cycle, or not at all:
    only a mandatory call that fails leads to the failure path, and a
    strategy list that cannot be used always does. *)
Lemma cycle_failure_path env st :
  isMounted st = true → fetchInProgress st = false →
  ((run_cycle env st).2 = Some (Finished Failed) →
   strategy_list_unavailable (net_strategies env) = true ∨
   health_unreachable (net_basic env) = true) ∧
  (strategy_list_unavailable (net_strategies env) = true →
   (run_cycle env st).2 = Some (Finished Failed)).
Proof.
  intros Hm Hf.
  destruct (fetchData_enters st Hm Hf) as (st0 & E0 & _).
  unfold run_cycle. rewrite E0. unfold script.
  rewrite drive_cons, resume_main.
  pose proof (after_strategies_outcome
                (Resumption Main (net_strategies env) (clock env))
                (await (teardown env 0) st0)) as H1.
  destruct (after_strategies _ _) as [st1 pr1]. cbn in H1. subst pr1.
  destruct (strategy_list_unavailable (net_strategies env)); [by split; auto|].
  split; [|done].
  rewrite drive_cons.
  pose proof (after_basic_failed (Resumption Main (net_basic env) (clock env))
                (await (teardown env 1) st1)) as H2.
  pose proof (resume_progress AwaitBasic (Resumption Main (net_basic env) (clock env))
                (await (teardown env 1) st1)) as P2.
  rewrite resume_main in *.
  destruct (after_basic _ _) as [st2 [p2|o2]]; cbn in H2.
  - destruct (P2 _ _ eq_refl) as [issued ->].
    match goal with
    | |- context [drive ?s ?p ?x] =>
        pose proof (drive_past_mandatory s p x eq_refl) as H3;
        destruct (drive s p x) as [st3 pr3]
    end.
    cbn in *. intros [= ->]. done.
  - cbn. intros [= ->]. right. by apply H2.
Qed.

(** C2: a cycle of a mounted, idle component reaches the [catch] block only
    when a mandatory call fails, that is, when the request for the strategy
    list is rejected or answered with a body that cannot be used, or when
    the request to [/health] is rejected; and a strategy list that is not
    available always makes the cycle fail fast.  Both hold whether or not
    the component is unmounted while the cycle waits.  When the component
    stays mounted, the cycle fails if and only if one of the two calls
    fails; [connectionStatus] then becomes [error] and the retry count
    grows by one; and when both calls succeed the cycle runs to completion
    whatever the status, wallet, market, position, trade and system-health
    fetches do. *)
Theorem cycle_aborts_iff_mandatory_call_fails env st :
  isMounted st = true → fetchInProgress st = false →
  ((run_cycle env st).2 = Some (Finished Failed) →
     strategy_list_unavailable (net_strategies env) = true ∨
     health_unreachable (net_basic env) = true) ∧
  (strategy_list_unavailable (net_strategies env) = true →
     (run_cycle env st).2 = Some (Finished Failed)) ∧
  (stays_mounted env →
     ((run_cycle env st).2 = Some (Finished Failed) ↔
        strategy_list_unavailable (net_strategies env) = true ∨
        health_unreachable (net_basic env) = true) ∧
     ((run_cycle env st).2 = Some (Finished Failed) →
        connectionStatus (run_cycle env st).1 = conn_error ∧
        retryCount (run_cycle env st).1 = S (retryCount st)) ∧
     (strategy_list_unavailable (net_strategies env) = false →
      health_unreachable (net_basic env) = false →
        (run_cycle env st).2 = Some (Finished Completed))).
Proof.
  intros Hm Hf.
  destruct (cycle_failure_path env st Hm Hf) as [Honly Hlist].
  split; [done|]. split; [done|]. intros Hstay.
  destruct (mounted_cycle_summary env st Hm Hf Hstay) as (o & Ho & Hsum).
  cbn zeta in Hsum. rewrite strategy_list_fails_unavailable in Hsum.
  rewrite Ho. unfold health_unreachable.
  change (getHealth (net_basic env)) with (request (net_basic env) (GET "/health")) in Hsum.
  destruct (strategy_list_unavailable (net_strategies env)).
  - destruct Hsum as (-> & Hc & Hr). split; [|split]; [split|..]; auto. done.
  - destruct (request (net_basic env) (GET "/health")); cbn [is_rejected].
    + destruct Hsum as (-> & _). split; [|split]; [split|..]; try done.
      intros [?|?]; done.
    + destruct Hsum as (-> & Hc & Hr). split; [|split]; [split|..]; auto. done.
Qed.

Lemma cycle_aborts_witness :
  let env := steady (backend ["/strategies/available"]) in
  ((run_cycle env initial).2 = Some (Finished Failed) →
     strategy_list_unavailable (net_strategies env) = true ∨
     health_unreachable (net_basic env) = true) ∧
  (strategy_list_unavailable (net_strategies env) = true →
     (run_cycle env initial).2 = Some (Finished Failed)) ∧
  (stays_mounted env →
     ((run_cycle env initial).2 = Some (Finished Failed) ↔
        strategy_list_unavailable (net_strategies env) = true ∨
        health_unreachable (net_basic env) = true) ∧
     ((run_cycle env initial).2 = Some (Finished Failed) →
        connectionStatus (run_cycle env initial).1 = conn_error ∧
        retryCount (run_cycle env initial).1 = S (retryCount initial)) ∧
     (strategy_list_unavailable (net_strategies env) = false →
      health_unreachable (net_basic env) = false →
        (run_cycle env initial).2 = Some (Finished Completed))).
Proof.
  apply (cycle_aborts_iff_mandatory_call_fails (steady (backend ["/strategies/available"]))
           initial); reflexivity.
Defined.

(** The health check is the call that fails in the sample run above, and
    the run does take the failure path. *)
Example health_failure_run :
  strategy_list_fails (steady (backend ["/health"])) initial = false ∧
  health_check_fails (steady (backend ["/health"])) = true ∧
  (run_cycle (steady (backend ["/health"])) initial).2 = Some (Finished Failed) ∧
  (run_cycle (steady (backend [])) initial).2 = Some (Finished Completed).
Proof. vm_compute. auto. Qed.
(** Each way a mandatory call can fail, on a dashboard that stays mounted:
    the strategy-list request is rejected, its body has [success: false],
    the health request is rejected.  Each run takes the failure path; the
    run against a backend that is up completes. *)
Example mandatory_failure_runs :
  (strategy_list_unavailable (backend ["/strategies/available"]) = true ∧
   (run_cycle (steady (backend ["/strategies/available"])) initial).2
   = Some (Finished Failed)) ∧
  (strategy_list_unavailable refusing_strategies = true ∧
   (run_cycle (steady refusing_strategies) initial).2 = Some (Finished Failed) ∧
   connectionStatus (run_cycle (steady refusing_strategies) initial).1 = conn_error ∧
   retryCount (run_cycle (steady refusing_strategies) initial).1 = 1) ∧
  (strategy_list_unavailable (backend ["/health"]) = false ∧
   health_unreachable (backend ["/health"]) = true ∧
   (run_cycle (steady (backend ["/health"])) initial).2 = Some (Finished Failed)) ∧
  (strategy_list_unavailable (backend []) = false ∧
   health_unreachable (backend []) = false ∧
   (run_cycle (steady (backend [])) initial).2 = Some (Finished Completed)).
Proof. vm_compute. auto 10. Qed.

End SyncCycleFacts.

Section DegradedFetches.
Import APIService TradingDashboard.

(** C3 (as stated, refuted): a cycle in which the status fetch fails does
    not leave the strategy statuses at their previous value.  With
    [/strategies/status] down the wrapper fulfils with [{}], and the cycle
    stores it over the statuses the dashboard had. *)
Lemma failed_status_fetch_overwrites_slice :
  ¬ (∀ env st,
       isMounted st = true → fetchInProgress st = false → stays_mounted env →
       is_rejected (request (net_basic env) (GET "/strategies/status")) = true →
       strategies (run_cycle env st).1 = strategies st).
Proof.
  intros H.
  specialize (H (steady (backend ["/strategies/status"])) synced
                eq_refl eq_refl (fun _ => eq_refl) eq_refl).
  vm_compute in H. discriminate H.
Qed.

(** The wallet slice.  The branch of [fetchData] for a failed wallet fetch
    keeps the slice and only warns, but [getWallet] never rejects: that
    branch is not taken, and the wrapper's [{}] is stored over the array
    the slice held. *)
Example failed_wallet_fetch_overwrites_slice :
  is_rejected (request (backend ["/wallet"]) (GET "/wallet")) = true ∧
  wallet (accountData synced) = VArr [VObj {[ "asset" := VStr "USD" ]}] ∧
  wallet (accountData (run_cycle (steady (backend ["/wallet"])) synced).1) = VObj ∅.
Proof. vm_compute. auto. Qed.

(** C3 (amended): when both mandatory calls succeed and the status fetch or
    the wallet fetch fails, the failure is absorbed: the cycle completes,
    [error] stays unset and the connection is reported as connected.  After
    a failed status fetch the strategy statuses are the empty object,
    whatever they were before. *)
Theorem failed_status_or_wallet_fetch_is_absorbed env st :
  isMounted st = true → fetchInProgress st = false → stays_mounted env →
  strategy_list_unavailable (net_strategies env) = false →
  health_unreachable (net_basic env) = false →
  is_rejected (request (net_basic env) (GET "/strategies/status")) = true ∨
  is_rejected (request (net_basic env) (GET "/wallet")) = true →
  (run_cycle env st).2 = Some (Finished Completed) ∧
  error (run_cycle env st).1 = None ∧
  connectionStatus (run_cycle env st).1 = connected ∧
  (is_rejected (request (net_basic env) (GET "/strategies/status")) = true →
     strategies (run_cycle env st).1 = VObj ∅).
Proof.
  intros Hm Hf Hstay Hs Hh _.
  destruct (mounted_cycle_summary env st Hm Hf Hstay) as (o & Ho & Hsum).
  cbn zeta in Hsum. rewrite strategy_list_fails_unavailable, Hs in Hsum.
  unfold health_unreachable in Hh.
  change (getHealth (net_basic env)) with (request (net_basic env) (GET "/health")) in Hsum.
  destruct (request (net_basic env) (GET "/health")); [|done].
  destruct Hsum as (-> & Hc & _ & He & Hst & _).
  split; [done|]. split; [done|]. split; [done|].
  rewrite Hst. unfold getAllStrategiesStatus. intros Hrej.
  by destruct (request _ (GET "/strategies/status")).
Qed.

Lemma failed_status_or_wallet_witness :
  let env := steady (backend ["/strategies/status"; "/wallet"]) in
  (run_cycle env synced).2 = Some (Finished Completed) ∧
  error (run_cycle env synced).1 = None ∧
  connectionStatus (run_cycle env synced).1 = connected ∧
  (is_rejected (request (net_basic env) (GET "/strategies/status")) = true →
     strategies (run_cycle env synced).1 = VObj ∅).
Proof.
  apply (failed_status_or_wallet_fetch_is_absorbed
           (steady (backend ["/strategies/status"; "/wallet"])) synced);
    [reflexivity | reflexivity | intros n; reflexivity | reflexivity | reflexivity |].
  left. reflexivity.
Defined.

(** The new market snapshot holds, for each tracked symbol, what its own
    promise resolved to. *)
Lemma newMarketData_lookup net symbol :
  symbol ∈ TRACKED_SYMBOLS →
  foldl (fun m '(symbol, data) => <[symbol := data]> m) (∅ : gmap string value)
    (map (market_result true net) TRACKED_SYMBOLS) !! symbol
  = Some (match request net (GET ("/market/" +:+ symbol)) with
          | Fulfilled data => js_or data (VObj ∅)
          | Rejected _ => VObj ∅
          end).
Proof.
  intros Hin. unfold TRACKED_SYMBOLS in *. cbn [map foldl].
  unfold market_result, getMarketData.
  repeat (apply elem_of_cons in Hin as [->|Hin]).
  5: by apply elem_of_nil in Hin.
  all: repeat match goal with
         | |- context [let '(_, _) := ?p in _] => destruct p eqn:?
         end.
  all: repeat match goal with
         | H : context [recover ?p _] |- _ => destruct p; cbn in H
         end; simplify_eq.
  all: by rewrite ?lookup_insert_eq, ?lookup_insert_ne by done.
Qed.

Lemma newMarketData_dom net :
  dom (foldl (fun m '(symbol, data) => <[symbol := data]> m) (∅ : gmap string value)
         (map (market_result true net) TRACKED_SYMBOLS))
  = list_to_set TRACKED_SYMBOLS.
Proof.
  apply set_eq. intros k. rewrite elem_of_dom, elem_of_list_to_set. split.
  - intros [v Hv]. unfold TRACKED_SYMBOLS in *. cbn [map foldl] in Hv.
    unfold market_result in Hv.
    repeat match type of Hv with
           | context [let '(_, _) := ?p in _] => destruct p eqn:?
           end.
    repeat case_match; simplify_eq.
    all: repeat (apply lookup_insert_Some in Hv as [[<- _]|[_ Hv]]; [set_solver|]).
    all: done.
  - intros Hin. rewrite (newMarketData_lookup _ _ Hin). eauto.
Qed.

(** C4: in a cycle that gets past the two mandatory calls, the entry of
    every tracked symbol is what that symbol's own fetch produced: the
    empty snapshot [{}] when the fetch failed, its data otherwise, whatever
    happened to the fetches of the other symbols; the keys are the tracked
    symbols; the cycle completes and [connectionStatus] ends as
    [connected]. *)
Theorem market_failure_is_per_symbol env st :
  isMounted st = true → fetchInProgress st = false → stays_mounted env →
  strategy_list_fails env st = false → health_check_fails env = false →
  (run_cycle env st).2 = Some (Finished Completed) ∧
  connectionStatus (run_cycle env st).1 = connected ∧
  dom (marketData (run_cycle env st).1) = list_to_set TRACKED_SYMBOLS ∧
  ∀ symbol, symbol ∈ TRACKED_SYMBOLS →
    marketData (run_cycle env st).1 !! symbol =
      Some (match request (net_market env) (GET ("/market/" +:+ symbol)) with
            | Fulfilled data => js_or data (VObj ∅)
            | Rejected _ => VObj ∅
            end).
Proof.
  intros Hm Hf Hstay Hs Hh.
  destruct (mounted_cycle_summary env st Hm Hf Hstay) as (o & Ho & Hsum).
  cbn zeta in Hsum. rewrite Hs in Hsum. unfold health_check_fails in Hh.
  destruct (getHealth (net_basic env)); [|done].
  destruct Hsum as (-> & Hc & _ & _ & _ & _ & Hk).
  rewrite Hk. split; [done|]. split; [done|]. split.
  - apply newMarketData_dom.
  - intros symbol Hin. by apply newMarketData_lookup.
Qed.

Lemma market_failure_witness :
  (run_cycle (steady (backend ["/market/ETHUSD"])) initial).2 = Some (Finished Completed) ∧
  connectionStatus (run_cycle (steady (backend ["/market/ETHUSD"])) initial).1 = connected ∧
  dom (marketData (run_cycle (steady (backend ["/market/ETHUSD"])) initial).1)
    = list_to_set TRACKED_SYMBOLS ∧
  ∀ symbol, symbol ∈ TRACKED_SYMBOLS →
    marketData (run_cycle (steady (backend ["/market/ETHUSD"])) initial).1 !! symbol =
      Some (match request (net_market (steady (backend ["/market/ETHUSD"])))
                    (GET ("/market/" +:+ symbol)) with
            | Fulfilled data => js_or data (VObj ∅)
            | Rejected _ => VObj ∅
            end).
Proof.
  apply (market_failure_is_per_symbol (steady (backend ["/market/ETHUSD"])) initial);
    [reflexivity | reflexivity | intros n; reflexivity | reflexivity | reflexivity].
Defined.

(** The scenario of the specification: the fetch for [ETHUSD] fails while
    the one for [BTCUSD] succeeds. *)
Example eth_fails_btc_succeeds :
  let st' := (run_cycle (steady (backend ["/market/ETHUSD"])) initial).1 in
  marketData st' !! "ETHUSD" = Some (VObj ∅) ∧
  marketData st' !! "BTCUSD" = Some (VObj {[ "price" := VNum 1 ]}) ∧
  connectionStatus st' = connected.
Proof. vm_compute. auto. Qed.

End DegradedFetches.

(** ** Retry and strategy control *)

Section ControlAndRetry.
Import APIService TradingDashboard.

Lemma drive_mounted script p st :
  Forall (fun x => x.1 = false) script →
  isMounted (drive script p st).1 = isMounted st.
Proof.
  intros Hs. revert p st. induction Hs as [|[torn r] rest Ht _ IH]; intros p st; [done|].
  simpl in Ht. subst torn. cbn [drive await].
  destruct (resume p r st) as [st1 [p1|o1]] eqn:E; apply resume_refs in E as [Hm _].
  - by rewrite IH.
  - done.
Qed.

(** A cycle of a mounted, idle component that stays mounted leaves it
    mounted and idle. *)
Lemma run_cycle_idle env st :
  isMounted st = true → fetchInProgress st = false → stays_mounted env →
  isMounted (run_cycle env st).1 = true ∧ fetchInProgress (run_cycle env st).1 = false.
Proof.
  intros Hm Hf Hstay.
  destruct (fetchData_enters st Hm Hf) as (st0 & E0 & Hm0 & _).
  unfold run_cycle. rewrite E0.
  destruct (drive (script env) AwaitStrategies st0) as [st1 pr1] eqn:E1. cbn. split.
  - change st1 with (st1, pr1).1. rewrite <- E1, drive_mounted; [done|].
    unfold script. repeat constructor; apply Hstay.
  - destruct (drive_script_finishes env st0) as [o Ho]. rewrite E1 in Ho. simpl in Ho.
    subst pr1. by eapply drive_finished_clears_flag.
Qed.

Lemma retry_delays_from envs : ∀ st k,
  isMounted st = true → fetchInProgress st = false →
  consecutive_failures envs st → (k < length envs)%nat →
  retry_delays envs st !! k = Some (retry_delay (retryCount st + k + 1)).
Proof.
  induction envs as [|env rest IH]; intros st k Hm Hf Hfail Hk; simpl in Hk; [lia|].
  destruct Hfail as (Hstay & Hout & Hrest).
  destruct (mounted_cycle_summary env st Hm Hf Hstay) as (o & Ho & Hsum).
  rewrite Ho in Hout. simplify_eq. cbn zeta in Hsum.
  assert (retryCount (run_cycle env st).1 = S (retryCount st)) as Hr.
  { destruct (strategy_list_fails env st); [by destruct Hsum as (_ & _ & ?)|].
    destruct (getHealth (net_basic env)); by destruct Hsum as (? & _ & ?). }
  destruct (run_cycle_idle env st Hm Hf Hstay) as [Hm' Hf'].
  cbn [retry_delays]. cbn zeta. rewrite lookup_cons. destruct k as [|k].
  - unfold handleRetry. cbn [delay]. rewrite Hr. do 2 f_equal. lia.
  - rewrite (IH _ k Hm' Hf' Hrest) by lia. rewrite Hr. do 2 f_equal. lia.
Qed.

(** C7 (as stated, refuted): after one failed cycle the delay before the
    first re-attempt is 2000 ms, not [min(1000 * 2^0, 10000)] = 1000 ms. *)
Lemma first_retry_delay_is_not_1000 :
  ¬ (∀ envs st k,
       isMounted st = true → fetchInProgress st = false → retryCount st = 0%nat →
       consecutive_failures envs st → (k < length envs)%nat →
       retry_delays envs st !! k = Some (Z.min (1000 * 2 ^ Z.of_nat k) 10000)).
Proof.
  intros H.
  specialize (H [steady offline] initial 0%nat eq_refl eq_refl eq_refl).
  assert (consecutive_failures [steady offline] initial) as Hfail.
  { split; [intros n; reflexivity|]. split; [vm_compute; reflexivity | exact I]. }
  specialize (H Hfail (Nat.lt_0_succ 0)).
  vm_compute in H. discriminate H.
Qed.

(** C7 (amended): the retry count grows by exactly one on each failed cycle
    and is reset to 0 by each completed one; hence, starting from a retry
    count of 0, after [N] failures in a row the delay computed before the
    [k]-th re-attempt ([k = 0..N-1]) is [min(1000 * 2^(k+1), 10000)] ms: the
    count already stands at [k + 1] when [handleRetry] reads it. *)
Theorem retry_backoff_sequence env envs st k :
  isMounted st = true → fetchInProgress st = false → stays_mounted env →
  ((run_cycle env st).2 = Some (Finished Failed) →
     retryCount (run_cycle env st).1 = S (retryCount st)) ∧
  ((run_cycle env st).2 = Some (Finished Completed) →
     retryCount (run_cycle env st).1 = 0%nat) ∧
  (retryCount st = 0%nat → consecutive_failures envs st → (k < length envs)%nat →
     retry_delays envs st !! k = Some (Z.min (1000 * 2 ^ (Z.of_nat k + 1)) 10000)).
Proof.
  intros Hm Hf Hstay.
  destruct (mounted_cycle_summary env st Hm Hf Hstay) as (o & Ho & Hsum).
  cbn zeta in Hsum. rewrite Ho. split; [|split].
  - intros [= ->]. destruct (strategy_list_fails env st); [by destruct Hsum as (_ & _ & ?)|].
    destruct (getHealth (net_basic env)); by destruct Hsum as (? & _ & ?).
  - intros [= ->]. destruct (strategy_list_fails env st); [by destruct Hsum|].
    destruct (getHealth (net_basic env)); [by destruct Hsum as (_ & _ & ? & _)|].
    by destruct Hsum.
  - intros Hr Hfail Hk. rewrite (retry_delays_from envs st k Hm Hf Hfail Hk), Hr.
    unfold retry_delay.
    by replace (Z.of_nat (0 + k + 1)) with (Z.of_nat k + 1)%Z by lia.
Qed.

Lemma retry_backoff_witness :
  ((run_cycle (steady offline) initial).2 = Some (Finished Failed) →
     retryCount (run_cycle (steady offline) initial).1 = S (retryCount initial)) ∧
  ((run_cycle (steady offline) initial).2 = Some (Finished Completed) →
     retryCount (run_cycle (steady offline) initial).1 = 0%nat) ∧
  (retryCount initial = 0%nat →
   consecutive_failures [steady offline; steady offline; steady offline] initial →
   (2 < length [steady offline; steady offline; steady offline])%nat →
     retry_delays [steady offline; steady offline; steady offline] initial !! 2%nat
       = Some (Z.min (1000 * 2 ^ (Z.of_nat 2 + 1)) 10000)).
Proof.
  apply (retry_backoff_sequence (steady offline)
           [steady offline; steady offline; steady offline] initial 2);
    [reflexivity | reflexivity | intros n; reflexivity].
Defined.

(** The delays before the re-attempts that follow five failures in a row. *)
Example five_failures :
  consecutive_failures (replicate 5 (steady offline)) initial ∧
  retry_delays (replicate 5 (steady offline)) initial = [2000; 4000; 8000; 10000; 10000]%Z.
Proof.
  split; [|vm_compute; reflexivity].
  cbn [replicate consecutive_failures].
  repeat split; try (intros n; reflexivity); vm_compute; reflexivity.
Qed.

Lemma handle_is_handle_control net c st :
  handle net c st = handle_control (reply net c st) st.
Proof.
  destruct c; cbn; [|reflexivity].
  unfold handleStartStrategy. by destruct (finalConfig config st).
Qed.

(** C9: for [startStrategy] and, in the same way, [stopStrategy] on a
    mounted component: when the backend's response has a true [success],
    exactly one timer is set, with a delay of 1000 ms, whose callback calls
    [fetchData], and the response is returned; when the call fails or the
    response has no true [success], no timer is set, the state is left as
    it is, and the value returned to the panel carries the message (the
    backend's response itself, or [{success: false, message}] built from
    the error). *)
Theorem strategy_control_schedules_refresh net c st :
  isMounted st = true →
  match reply net c st with
  | Fulfilled result =>
      if truthy (js_and result (js_get result "success")) then
        (handle net c st).1.2 = [Timer 1000 CbRefresh] ∧ (handle net c st).2 = result
      else
        (handle net c st).1.2 = [] ∧ (handle net c st).1.1 = st ∧
        (handle net c st).2 = js_or result no_response
  | Rejected e =>
      (handle net c st).1.2 = [] ∧ (handle net c st).1.1 = st ∧
      (handle net c st).2 = failure_of e ∧
      js_get (handle net c st).2 "message" = VStr (err_message e)
  end ∧
  ∀ w, isMounted (dash w) = true → run_callback CbRefresh w = call_fetchData w.
Proof.
  intros Hm. rewrite handle_is_handle_control. split.
  - unfold handle_control. destruct (reply net c st) as [result|e].
    + rewrite Hm, andb_true_r.
      destruct (truthy (js_and result (js_get result "success"))) eqn:Ht; cbn.
      * split; [done|]. unfold js_or. unfold js_and in Ht.
        destruct (truthy result) eqn:Hr; [done|]. congruence.
      * done.
    + cbn. repeat split.
  - intros w Hw. cbn. by rewrite Hw.
Qed.

Lemma strategy_control_witness :
  match reply (backend []) (Start "BTCUSD" (VObj ∅)) initial with
  | Fulfilled result =>
      if truthy (js_and result (js_get result "success")) then
        (handle (backend []) (Start "BTCUSD" (VObj ∅)) initial).1.2 = [Timer 1000 CbRefresh] ∧
        (handle (backend []) (Start "BTCUSD" (VObj ∅)) initial).2 = result
      else
        (handle (backend []) (Start "BTCUSD" (VObj ∅)) initial).1.2 = [] ∧
        (handle (backend []) (Start "BTCUSD" (VObj ∅)) initial).1.1 = initial ∧
        (handle (backend []) (Start "BTCUSD" (VObj ∅)) initial).2 = js_or result no_response
  | Rejected e =>
      (handle (backend []) (Start "BTCUSD" (VObj ∅)) initial).1.2 = [] ∧
      (handle (backend []) (Start "BTCUSD" (VObj ∅)) initial).1.1 = initial ∧
      (handle (backend []) (Start "BTCUSD" (VObj ∅)) initial).2 = failure_of e ∧
      js_get (handle (backend []) (Start "BTCUSD" (VObj ∅)) initial).2 "message"
        = VStr (err_message e)
  end ∧
  ∀ w, isMounted (dash w) = true → run_callback CbRefresh w = call_fetchData w.
Proof.
  apply (strategy_control_schedules_refresh (backend []) (Start "BTCUSD" (VObj ∅)) initial).
  reflexivity.
Defined.

(** A start that succeeds sets the one-second timer; a stop that fails at
    the network level sets none and reports the error's message. *)
Example start_succeeds_stop_fails :
  (handle (backend []) (Start "BTCUSD" (VObj ∅)) initial).1.2 = [Timer 1000 CbRefresh] ∧
  (handle offline (Stop "BTCUSD") initial).1.2 = [] ∧
  (handle offline (Stop "BTCUSD") initial).2 = failure_of (JsError "TypeError" "Failed to fetch").
Proof. vm_compute. auto. Qed.

End ControlAndRetry.

(** ** The WebSocket feed and teardown *)

Section FeedAndTeardown.
Import APIService TradingDashboard.

(** After a switch from [BTCUSD] to [ETHUSD] the close event of the old
    socket arms the reconnect timer of the old closure; when it fires, a
    socket for [BTCUSD] is opened again. *)
Example reconnect_after_switch :
  let w := run [EvWsOpen 0; EvSelectSymbol "ETHUSD"; EvWsClose 0; EvTimer 0; EvWsOpen 2]
               mounted in
  selectedSymbol (dash w) = "ETHUSD" ∧
  sockets w = [Socket "BTCUSD" 0 CLOSED; Socket "ETHUSD" 1 CONNECTING; Socket "BTCUSD" 0 OPEN] ∧
  wsRef w = Some 2%nat ∧ generation w = 1%nat.
Proof. vm_compute. auto. Qed.

(** No check of the channel guards the message handler: a message that
    arrives on a socket whose channel the symbol switch has closed can
    change the ViewModel. *)
Lemma late_message_after_switch_is_applied :
  ¬ (∀ evs i s data,
       sockets (run evs mounted) !! i = Some s →
       logically_closed (run evs mounted) s = true →
       viewModel (dash (step (EvWsMessage i data) (run evs mounted)))
       = viewModel (dash (run evs mounted))).
Proof.
  intros H.
  specialize (H [EvWsOpen 0; EvSelectSymbol "ETHUSD"; EvWsClose 0; EvTimer 0; EvWsOpen 2]
                2%nat (Socket "BTCUSD" 0 OPEN) (Some (VObj {[ "price" := VNum 2 ]}))
                eq_refl eq_refl).
  vm_compute in H. discriminate H.
Qed.

Lemma spread2_lookup prev data f :
  own_props (spread2 prev data) !! f =
  match own_props data !! f with
  | Some v => Some v
  | None => own_props prev !! f
  end.
Proof.
  unfold spread2. cbn [own_props]. rewrite lookup_union.
  destruct (own_props data !! f), (own_props prev !! f); reflexivity.
Qed.

(** C5 (the code at the failing input): the user switches from [BTCUSD] to
    [ETHUSD].  The cleanup of the effect closes the [BTCUSD] socket, but
    the close event of that socket arms the reconnect timer of the old
    closure; when it fires, a new socket for [BTCUSD] is opened and stored
    in [wsRef], and a message on it is written into [marketData] although
    its channel was closed by the switch. *)
Lemma ws_message_after_switch_writes_state :
  let switched := run [EvWsOpen 0; EvSelectSymbol "ETHUSD"] mounted in
  let w := run [EvWsClose 0; EvTimer 0; EvWsOpen 2] switched in
  let w' := step (EvWsMessage 2 (Some (VObj {[ "price" := VNum 2 ]}))) w in
  sockets switched = [Socket "BTCUSD" 0 CLOSING; Socket "ETHUSD" 1 CONNECTING] ∧
  wsRef switched = Some 1%nat ∧
  timers (step (EvWsClose 0) switched) = [Timer 5000 (CbReconnect "BTCUSD" 0)] ∧
  isMounted (dash w) = true ∧ selectedSymbol (dash w) = "ETHUSD" ∧
  sockets w !! 2%nat = Some (Socket "BTCUSD" 0 OPEN) ∧ wsRef w = Some 2%nat ∧
  logically_closed w (Socket "BTCUSD" 0 OPEN) = true ∧
  marketData (dash w) !! "BTCUSD" = None ∧
  marketData (dash w') !! "BTCUSD" = Some (VObj {[ "price" := VNum 2 ]}).
Proof. vm_compute. auto 10. Qed.

(** Every continuation that writes through [safeSetState] is silent once
    the component is unmounted: a resumed cycle only clears its flag, the
    light polls and the control handlers change nothing and set no timer. *)
Lemma guarded_continuations_after_unmount p r result net st :
  isMounted st = false →
  viewModel (resume p r st).1 = viewModel st ∧
  (handle_control result st).1 = (st, []) ∧
  fetchStrategiesStatus net st = st ∧ fetchMarketData net st = st ∧
  fetchWalletData net st = st ∧ fetchPositionData net st = st ∧
  fetchTradeData net st = st ∧ fetchSystemHealth net st = st.
Proof.
  intros Hm. split; [|split].
  - destruct st, r as [[] n t], p; simpl in Hm; subst;
      unfold_cycle; cbn; repeat case_match; simplify_eq; reflexivity.
  - unfold handle_control. rewrite Hm.
    destruct result; rewrite ?andb_false_r; reflexivity.
  - destruct st; simpl in Hm; subst. unfold_cycle; cbn.
    repeat split; repeat case_match; reflexivity.
Qed.

(** C6 (the code at the failing input): the component is unmounted, the
    close event of its socket arms the reconnect timer, the timer opens a
    new socket, and a message on that socket is written into [marketData]
    although [isMounted] is false. *)
Lemma ws_message_after_unmount_writes_state :
  let w := run [EvWsOpen 0; EvUnmount; EvWsClose 0; EvTimer 0; EvWsOpen 1] mounted in
  let w' := step (EvWsMessage 1 (Some (VObj {[ "price" := VNum 2 ]}))) w in
  isMounted (dash w) = false ∧
  timers (run [EvWsOpen 0; EvUnmount; EvWsClose 0] mounted)
    = [Timer 5000 (CbReconnect "BTCUSD" 0)] ∧
  marketData (dash w) = ∅ ∧
  marketData (dash w') = {[ "BTCUSD" := VObj {[ "price" := VNum 2 ]} ]}.
Proof. vm_compute. auto. Qed.

End FeedAndTeardown.

(** ** The alert panel *)

Section StringFacts.

Lemma list_ascii_of_string_app s1 s2 :
  String.list_ascii_of_string (s1 +:+ s2)
  = String.list_ascii_of_string s1 ++ String.list_ascii_of_string s2.
Proof. induction s1 as [|c s1 IH]; simpl; [done|]. by rewrite IH. Qed.

Lemma list_ascii_of_string_inj s1 s2 :
  String.list_ascii_of_string s1 = String.list_ascii_of_string s2 → s1 = s2.
Proof.
  intros H. rewrite <- (String.string_of_list_ascii_of_string s1),
    <- (String.string_of_list_ascii_of_string s2). by rewrite H.
Qed.

(** A common suffix can be cancelled. *)
Lemma append_inv_tail s1 s2 t : s1 +:+ t = s2 +:+ t → s1 = s2.
Proof.
  intros H. apply list_ascii_of_string_inj.
  apply (f_equal String.list_ascii_of_string) in H.
  rewrite !list_ascii_of_string_app in H. by apply app_inv_tail in H.
Qed.

(** The last character of [s +:+ t] is the one of a non-empty [t]. *)
Lemma last_append s t c :
  last (String.list_ascii_of_string t) = Some c →
  last (String.list_ascii_of_string (s +:+ t)) = Some c.
Proof. intros H. by rewrite list_ascii_of_string_app, last_app, H. Qed.

End StringFacts.

Section AlertFacts.
Import AlertsPanel.

Lemma render_last_char k :
  last_char (render k) =
  match k with
  | KError _ => Some "r"%char
  | KLongtime _ => Some "e"%char
  | KProfit _ => Some "t"%char
  | KLoss _ => Some "s"%char
  end.
Proof. destruct k; unfold last_char; cbn [render]; repeat apply last_append; reflexivity. Qed.

(** Two keys never render to the same id. *)
Global Instance render_inj : Inj (=) (=) render.
Proof.
  intros k1 k2 H. pose proof (f_equal last_char H) as Hl.
  rewrite !render_last_char in Hl.
  destruct k1, k2; try discriminate Hl; cbn [render] in H.
  - f_equal. by eapply append_inv_tail.
  - f_equal. by eapply append_inv_tail.
  - apply (inj _) in H. apply append_inv_tail in H. f_equal. by apply (inj pretty).
  - apply (inj _) in H. apply append_inv_tail in H. f_equal. by apply (inj pretty).
Qed.

Global Instance newer_first_trans : Transitive newer_first.
Proof. unfold newer_first. intros a b c ??. lia. Qed.

Global Instance newer_first_total : Total newer_first.
Proof. unfold newer_first. intros a b. lia. Qed.

(** Lists built for distinct owners, each without repetition, concatenate
    to a list without repetition. *)
Lemma NoDup_concat_owner (bs : list (string + nat)) (kss : list (list key)) :
  NoDup bs →
  Forall2 (fun b ks => NoDup ks ∧ Forall (fun k => owner k = b) ks) bs kss →
  NoDup (concat kss) ∧ Forall (fun k => owner k ∈ bs) (concat kss).
Proof.
  intros Hbs H. induction H as [|b ks bs kss [Hks Hown] _ IH]; cbn [concat].
  - split; constructor.
  - apply NoDup_cons in Hbs as [Hb Hbs]. destruct (IH Hbs) as [Hnd Hin].
    split.
    + apply NoDup_app. split; [done|]. split; [|done].
      intros k Hk Hk'. rewrite Forall_forall in Hown, Hin.
      apply Hb. rewrite <- (Hown k Hk). by apply Hin.
    + apply Forall_app. split.
      * eapply Forall_impl; [exact Hown|]. intros k ->. by left.
      * eapply Forall_impl; [exact Hin|]. intros k ?. by right.
Qed.

Lemma includes_elem_of ids x : includes ids x = true ↔ x ∈ ids.
Proof.
  unfold includes. rewrite existsb_exists. split.
  - intros (y & Hy & ->%String.eqb_eq). by apply list_elem_of_In.
  - intros Hx. exists x. split; [by apply list_elem_of_In | apply String.eqb_refl].
Qed.

Lemma NoDup_fmap_filter {A B} (f : A → B) (P : A → Prop) `{∀ x, Decision (P x)} l :
  NoDup (f <$> l) → NoDup (f <$> filter P l).
Proof.
  induction l as [|a l IH]; [done|]. cbn [fmap list_fmap].
  intros [Ha Hl]%NoDup_cons. rewrite filter_cons. case_decide; [|by apply IH].
  cbn [fmap list_fmap]. apply NoDup_cons. split; [|by apply IH].
  intros (b & Hb & [_ Hin]%list_elem_of_filter)%list_elem_of_fmap.
  apply Ha. rewrite Hb. by apply list_elem_of_fmap_2.
Qed.

Lemma StronglySorted_filter {A} (R : relation A) (P : A → Prop) `{∀ x, Decision (P x)} l :
  StronglySorted R l → StronglySorted R (filter P l).
Proof.
  induction 1 as [|a l _ IH Ha]; [constructor|].
  rewrite filter_cons. case_decide; [|done]. constructor; [done|].
  rewrite Forall_forall in Ha. apply Forall_forall.
  intros b [_ Hb]%list_elem_of_filter. by apply Ha.
Qed.

(** What one merge establishes. *)
Lemma merge_sorted t derived prev : sorted_desc (merge t derived prev).
Proof. unfold merge, sorted_desc. apply (StronglySorted_merge_sort _). Qed.

Lemma merge_within_24h t derived prev : within_24h t (merge t derived prev).
Proof.
  unfold merge, within_24h. apply Forall_forall. intros a Ha.
  rewrite merge_sort_Permutation in Ha. by apply list_elem_of_filter in Ha as [? _].
Qed.

Lemma merge_unique t derived prev :
  NoDup (id <$> derived) → unique_ids prev → unique_ids (merge t derived prev).
Proof.
  unfold merge, unique_ids. change (map id) with (fmap (M := list) id).
  intros Hd Hp. rewrite merge_sort_Permutation.
  apply NoDup_fmap_filter. rewrite fmap_app. apply NoDup_app.
  split; [done|]. split; [|by apply NoDup_fmap_filter].
  intros x Hx (a & -> & [Ha _]%list_elem_of_filter)%list_elem_of_fmap.
  apply negb_true_iff, not_true_iff_false in Ha. by apply Ha, includes_elem_of.
Qed.

Lemma dismiss_sorted alertId prev : sorted_desc prev → sorted_desc (dismissAlert alertId prev).
Proof. apply StronglySorted_filter. Qed.

Lemma dismiss_unique alertId prev : unique_ids prev → unique_ids (dismissAlert alertId prev).
Proof.
  unfold unique_ids, dismissAlert. change (map id) with (fmap (M := list) id).
  apply NoDup_fmap_filter.
Qed.

Section Derived.
Variable parseFloat : value → float.
Variable toFixed1 : float → string.
Variable getTime : value → option Z.

Lemma strategy_alerts_keys t symbol strategy l :
  strategy_alerts getTime t symbol strategy = Some l →
  Forall (fun a => timestamp a = t) l ∧
  ∃ ks, id <$> l = render <$> ks ∧ NoDup ks ∧ Forall (fun k => owner k = inl symbol) ks.
Proof.
  unfold strategy_alerts. intros H.
  repeat case_match; simplify_eq; cbn; (split; [repeat constructor|]).
  - exists [KError symbol; KLongtime symbol]. repeat split; [|repeat constructor..].
    apply NoDup_cons. split; [|apply NoDup_singleton]. by intros [=]%list_elem_of_singleton.
  - exists [KError symbol]. repeat split; [apply NoDup_singleton | repeat constructor].
  - exists [KError symbol]. repeat split; [apply NoDup_singleton | repeat constructor].
  - exists [KError symbol]. repeat split; [apply NoDup_singleton | repeat constructor].
  - exists [KLongtime symbol]. repeat split; [apply NoDup_singleton | repeat constructor].
  - exists []. repeat split; constructor.
  - exists []. repeat split; constructor.
  - exists []. repeat split; constructor.
  - exists []. repeat split; constructor.
Qed.

Lemma position_alerts_keys t index position l :
  position_alerts parseFloat toFixed1 t index position = Some l →
  Forall (fun a => timestamp a = t) l ∧
  ∃ ks, id <$> l = render <$> ks ∧ NoDup ks ∧ Forall (fun k => owner k = inr index) ks.
Proof.
  unfold position_alerts. intros H.
  repeat case_match; simplify_eq; cbn; (split; [repeat constructor|]).
  - exists [KProfit index]. repeat split; [apply NoDup_singleton | repeat constructor].
  - exists [KLoss index]. repeat split; [apply NoDup_singleton | repeat constructor].
  - exists []. repeat split; constructor.
  - exists []. repeat split; constructor.
Qed.

(** Gathering the keys of a whole batch. *)
Lemma batch_keys {X} (f : X → option (list alert)) (own : X → string + nat) t xs ls :
  (∀ x l, f x = Some l →
     Forall (fun a => timestamp a = t) l ∧
     ∃ ks, id <$> l = render <$> ks ∧ NoDup ks ∧ Forall (fun k => owner k = own x) ks) →
  mapM f xs = Some ls →
  Forall (fun a => timestamp a = t) (concat ls) ∧
  ∃ kss, id <$> concat ls = render <$> concat kss ∧
         Forall2 (fun b ks => NoDup ks ∧ Forall (fun k => owner k = b) ks) (own <$> xs) kss.
Proof.
  intros Hf H. apply mapM_Some_1 in H.
  induction H as [|x l xs ls Hx _ IH]; cbn [concat fmap list_fmap].
  - split; [constructor|]. exists []. split; [done|constructor].
  - destruct (Hf x l Hx) as (Ht & ks & Hid & Hnd & Hown).
    destruct IH as (Hts & kss & Hids & Hall).
    split; [by apply Forall_app|].
    exists (ks :: kss). cbn [concat]. rewrite !fmap_app, Hid, Hids.
    split; [done|]. by constructor.
Qed.

(** The alerts of one run of the effect carry pairwise distinct ids and
    the time of the run. *)
Lemma newAlerts_unique t strategies positions derived :
  newAlerts parseFloat toFixed1 getTime t strategies positions = Some derived →
  NoDup (id <$> derived) ∧ Forall (fun a => timestamp a = t) derived.
Proof.
  unfold newAlerts. intros H.
  destruct (mapM _ (map_to_list _)) as [fs|] eqn:Es; [|done].
  destruct (mapM _ (imap pair _)) as [fp|] eqn:Ep; [|done].
  cbn in H. simplify_eq.
  eapply (batch_keys _ (fun x => inl x.1) t) in Es as (Hts & kss & Hids & Hs).
  2: { intros [symbol strategy] l. apply strategy_alerts_keys. }
  eapply (batch_keys _ (fun x => inr x.1) t) in Ep as (Htp & ksp & Hidp & Hp).
  2: { intros [index position] l. apply position_alerts_keys. }
  split; [|by apply Forall_app].
  rewrite fmap_app, Hids, Hidp, <- fmap_app, <- concat_app.
  apply (NoDup_fmap_2 _). eapply NoDup_concat_owner; [|by apply Forall2_app].
  apply NoDup_app. split; [|split].
  - change (fun x : string * value => inl x.1) with (@inl string nat ∘ @fst string value).
    rewrite list_fmap_compose. apply (NoDup_fmap_2 _), NoDup_fst_map_to_list.
  - intros b (x & -> & _)%list_elem_of_fmap (y & [=] & _)%list_elem_of_fmap.
  - change (fun x : nat * value => inr x.1) with (@inr string nat ∘ @fst nat value).
    rewrite list_fmap_compose. apply (NoDup_fmap_2 _).
    rewrite fmap_imap. rewrite (imap_seq_0 _ (fun j => j)), list_fmap_id.
    apply NoDup_seq.
Qed.

(** Every action keeps the list sorted and free of repeated ids. *)
Lemma apply_invariant a alerts :
  sorted_desc alerts ∧ unique_ids alerts →
  sorted_desc (apply parseFloat toFixed1 getTime a alerts) ∧
  unique_ids (apply parseFloat toFixed1 getTime a alerts).
Proof.
  intros [Hs Hu]. destruct a as [t strategies positions|alertId|]; cbn [apply].
  - destruct (newAlerts _ _ _ t strategies positions) as [derived|] eqn:E; [|done].
    apply newAlerts_unique in E as [Hd _].
    split; [apply merge_sorted | by apply merge_unique].
  - split; [by apply dismiss_sorted | by apply dismiss_unique].
  - split; [constructor | apply NoDup_nil_2].
Qed.

Lemma history_invariant actions :
  sorted_desc (history parseFloat toFixed1 getTime actions) ∧
  unique_ids (history parseFloat toFixed1 getTime actions).
Proof.
  unfold history. induction actions as [|a actions IH] using rev_ind.
  - split; [constructor | apply NoDup_nil_2].
  - rewrite foldl_snoc. by apply apply_invariant.
Qed.

(** C8: whatever the panel has gone through (effects, dismissals,
    clearing), its alert list is sorted by timestamp, newest first, and
    holds no two alerts with the same id; right after a merge at time [t]
    every alert in it is younger than 24 hours; and running the effect
    again on the same [strategies] and [positions], at the same or any
    later time, leaves the ids pairwise distinct: no duplicate is added. *)
Theorem alert_list_invariants actions :
  sorted_desc (history parseFloat toFixed1 getTime actions) ∧
  unique_ids (history parseFloat toFixed1 getTime actions) ∧
  ∀ t strategies positions derived,
    newAlerts parseFloat toFixed1 getTime t strategies positions = Some derived →
    let merged := apply parseFloat toFixed1 getTime (Effect t strategies positions)
                    (history parseFloat toFixed1 getTime actions) in
    merged = merge t derived (history parseFloat toFixed1 getTime actions) ∧
    sorted_desc merged ∧ unique_ids merged ∧ within_24h t merged ∧
    ∀ t', let again := apply parseFloat toFixed1 getTime (Effect t' strategies positions)
                         merged in
          sorted_desc again ∧ unique_ids again.
Proof.
  pose proof (history_invariant actions) as Hinv.
  split; [apply Hinv|]. split; [apply Hinv|].
  intros t strategies positions derived E merged.
  pose proof (apply_invariant (Effect t strategies positions) _ Hinv) as Hm.
  fold merged in Hm. split; [|split; [apply Hm|split; [apply Hm|split]]].
  - unfold merged. cbn [apply]. by rewrite E.
  - unfold merged. cbn [apply]. rewrite E. apply merge_within_24h.
  - intros t' again. by apply apply_invariant.
Qed.

End Derived.

(** The scenario of the specification: a position with margin 100 and an
    unrealised profit of 60 yields exactly one alert, of type [success] and
    priority [medium]; running the effect twice adds nothing. *)
Example profit_alert_once :
  let effect := Effect 1700000000000%Z (VObj ∅) (Some [sample_position]) in
  let once := history sample_parseFloat (fun _ => "60.0") (fun _ => None) [effect] in
  let twice := history sample_parseFloat (fun _ => "60.0") (fun _ => None) [effect; effect] in
  (id <$> once) = ["pos-0-profit"] ∧ (type <$> once) = [success] ∧
  (priority <$> once) = [medium] ∧ twice = once.
Proof. vm_compute. auto. Qed.

End AlertFacts.

(** ** The dashboard between cycles *)

Section DashboardStateFacts.
Import APIService TradingDashboard DashboardState.

(** How resuming a cycle of a mounted component moves the status and the
    spinner. *)
Lemma resume_status p r st st' pr :
  isMounted st = true → connectionStatus st = phase_status p →
  resume p r st = (st', pr) →
  match pr with
  | Suspended p' => connectionStatus st' = phase_status p' ∧ loading st' = loading st
  | Finished _ =>
      (connectionStatus st' = connected ∨ connectionStatus st' = conn_error) ∧
      loading st' = false
  end.
Proof.
  intros Hm Hc. destruct st, r as [[] n t], p; simpl in Hm, Hc; subst;
    unfold_cycle; unfold balance_updater; cbn;
    intros; repeat case_match; simplify_eq; cbn in *; auto.
Qed.

Lemma fetchData_status st st' p :
  fetchData st = (st', Some p) →
  p = AwaitStrategies ∧ connectionStatus st' = connecting ∧ loading st' = loading st.
Proof.
  unfold fetchData. case_match; [done|]. intros [= <- <-].
  apply orb_false_iff in H as [Hm%negb_false_iff _].
  destruct st; simpl in Hm; subst. done.
Qed.

(** The polls, the control handlers, the feed and the selector leave the
    flags, the spinner and the status alone. *)
Lemma bystanders_keep_flags st :
  ∀ st', (∃ net, st' = fetchStrategiesStatus net st) ∨
         (∃ net, st' = fetchMarketData net st) ∨
         (∃ symbol data, st' = onmessage symbol data st) ∨
         (∃ result, st' = (handle_control result st).1.1) ∨
         (∃ symbol, st' = setSelectedSymbol symbol st) →
    isMounted st' = isMounted st ∧ fetchInProgress st' = fetchInProgress st ∧
    loading st' = loading st ∧ connectionStatus st' = connectionStatus st.
Proof.
  intros st' [[net ->]|[[net ->]|[(symbol & data & ->)|[[result ->]|[symbol ->]]]]];
    destruct st; try destruct data; try destruct result;
    unfold_cycle; cbn; repeat case_match; cbn; auto.
Qed.

Lemma setLoading_slices b st :
  isMounted (setLoading b st) = isMounted st ∧
  fetchInProgress (setLoading b st) = fetchInProgress st ∧
  connectionStatus (setLoading b st) = connectionStatus st ∧
  loading (setLoading b st) = b.
Proof. by destruct st. Qed.

Lemma coherent_frame w w' :
  cycles w' = cycles w →
  isMounted (dash w') = isMounted (dash w) ∧
  fetchInProgress (dash w') = fetchInProgress (dash w) ∧
  loading (dash w') = loading (dash w) ∧
  connectionStatus (dash w') = connectionStatus (dash w) →
  coherent w → coherent w'.
Proof. unfold coherent. by intros -> (-> & -> & -> & ->). Qed.

Lemma call_fetchData_coherent w : coherent w → coherent (call_fetchData w).
Proof.
  intros Hw. unfold call_fetchData.
  destruct (fetchData (dash w)) as [st p] eqn:E.
  pose proof E as Hrefs. apply fetchData_refs in Hrefs as [Hm Hp].
  destruct p as [p|]; simpl in *.
  - destruct Hp as (Hmount & Hfree & Hset).
    apply fetchData_status in E as (-> & Hc & Hl).
    destruct (Hw Hmount) as (Hflag & Hload & _ & _).
    assert (cycles w = []) as Hnil.
    { destruct (cycles w) eqn:Ec; [done|]. rewrite Hfree in Hflag.
      by destruct Hflag as [_ Hflag]; discriminate Hflag. }
    intros _. cbn. rewrite Hnil. cbn. repeat split; try done.
    by intros p ->%list_elem_of_singleton.
  - subst st. rewrite app_nil_r. by destruct w.
Qed.

Lemma step_coherent e w :
  single_cycle w → coherent w → coherent (step e w).
Proof.
  intros Hs Hw. destruct e; cbn [step].
  - by apply call_fetchData_coherent.
  - destruct (isMounted (dash w)) eqn:Hm; [|done].
    unfold call_fetchData. cbn [dash with_dash cycles timers sockets wsRef generation].
    unfold safeSetState. rewrite Hm.
    destruct (setLoading_slices true (dash w)) as (Sm & Sf & Sc & Sl).
    destruct (fetchData (setLoading true (dash w))) as [st p] eqn:E.
    pose proof E as Hrefs. apply fetchData_refs in Hrefs as [Hm' Hp].
    destruct (Hw Hm) as (Hflag & Hload & Hphase & Hidle).
    destruct p as [p|]; simpl in Hp.
    + destruct Hp as (_ & Hfree & Hset).
      apply fetchData_status in E as (-> & Hc & Hl).
      assert (cycles w = []) as Hnil.
      { destruct (cycles w) eqn:Ec; [done|].
        assert (fetchInProgress (dash w) = true) as Hf by (by apply Hflag).
        congruence. }
      intros _. cbn. rewrite Hnil. cbn. repeat split; try done.
      by intros p ->%list_elem_of_singleton.
    + subst st. intros _. cbn. rewrite app_nil_r.
      assert (fetchInProgress (dash w) = true) as Hf.
      { unfold fetchData in E. case_match; [|done].
        rewrite Sm, Sf, Hm in H. by destruct (fetchInProgress (dash w)). }
      assert (cycles w ≠ []) as Hne by (by apply Hflag).
      rewrite ?Sm, ?Sf, ?Sc. repeat split; try done.
  - destruct (isMounted (dash w)); [|done]. exact Hw.
  - destruct (_ && _); [|done].
    destruct (close_current_frame (with_dash (setSelectedSymbol symbol (dash w)) w))
      as [Hd Hc].
    eapply coherent_frame; [..|exact Hw]; cbn; rewrite ?Hd, ?Hc; [done|].
    done.
  - destruct (cycles w !! i) as [p|] eqn:Hi; [|done].
    destruct (resume p r (dash w)) as [st pr] eqn:E.
    destruct Hs as [Hlen _].
    destruct (cycles w) as [|c [|c' cs]] eqn:Ec; simpl in Hlen; [done| |lia].
    destruct i; [|done]. simpl in Hi. simplify_eq.
    pose proof E as Hrefs. apply resume_refs in Hrefs as [Hm Hp].
    intros Hm'. cbn in Hm'. rewrite Hm in Hm'.
    destruct (Hw Hm') as (Hflag & Hload & Hphase & _). rewrite Ec in *.
    apply resume_status in E; [|done|apply Hphase; by left].
    destruct pr as [p'|o]; cbn.
    + destruct E as [Hc Hl]. rewrite Hp, Hl. repeat split; try done.
      * intros _. by apply Hflag.
      * by intros q ->%list_elem_of_singleton.
    + destruct E as [Hc Hl]. rewrite Hp, Hl. repeat split; try done.
      by intros q Hq%elem_of_nil.
  - destruct (handle_control result (dash w)) as [[st ts] v] eqn:E.
    eapply coherent_frame; [..|exact Hw]; cbn; [done|].
    replace st with (handle_control result (dash w)).1.1 by (by rewrite E).
    apply bystanders_keep_flags. do 3 right. left. eexists; reflexivity.
  - eapply coherent_frame; [..|exact Hw]; cbn; [done|].
    apply bystanders_keep_flags. left. eexists; reflexivity.
  - eapply coherent_frame; [..|exact Hw]; cbn; [done|].
    apply bystanders_keep_flags. right. left. eexists; reflexivity.
  - destruct (timers w !! i) as [t|]; [|done].
    destruct (callback t); cbn [run_callback].
    + cbn. destruct (isMounted (dash w)) eqn:Hm; [|done].
      by apply call_fetchData_coherent.
    + exact Hw.
  - destruct (sockets w !! i) as [[s g []]|]; exact Hw.
  - destruct (sockets w !! i) as [[s g []]|]; try done.
    eapply coherent_frame; [..|exact Hw]; cbn; [done|].
    apply bystanders_keep_flags. do 2 right. left. do 2 eexists; reflexivity.
  - destruct (sockets w !! i) as [[s g []]|]; exact Hw.
  - done.
  - destruct (isMounted (dash w)); [|done].
    intros Hm. cbn in Hm. done.
Qed.

Lemma mounted_coherent : coherent mounted.
Proof.
  intros _. cbn. repeat split; try done.
  by intros p ->%list_elem_of_singleton.
Qed.

Lemma run_coherent evs :
  single_cycle (run evs mounted) ∧ coherent (run evs mounted).
Proof.
  unfold run. induction evs as [|e evs IH] using rev_ind.
  - split; [apply mounted_single_cycle | apply mounted_coherent].
  - rewrite foldl_snoc. destruct IH as [Hs Hc].
    split; [by apply step_single_cycle | by apply step_coherent].
Qed.

(** *** Keys of the market snapshot *)

Lemma newMarketData_keys issued net (symbols : list string) (m : gmap string value) :
  dom (foldl (fun m '(symbol, data) => <[symbol := data]> m) m
         (map (market_result issued net) symbols))
  = list_to_set symbols ∪ dom m.
Proof.
  revert m. induction symbols as [|s symbols IH]; intros m; cbn [map foldl list_to_set].
  - by rewrite (left_id_L ∅ (∪)).
  - assert (∃ d, market_result issued net s = (s, d)) as [d ->].
    { unfold market_result. repeat case_match; eauto. }
    rewrite IH, dom_insert_L, (assoc_L (∪)). f_equal. apply (comm_L (∪)).
Qed.

Lemma collect_keys_from get (symbols : list string) (m : gmap string value) :
  dom (foldl (fun response symbol =>
                match get symbol with
                | Fulfilled data => <[symbol := data]> response
                | Rejected _ => <[symbol := VObj ∅]> response
                end) m symbols)
  = list_to_set symbols ∪ dom m.
Proof.
  revert m. induction symbols as [|s symbols IH]; intros m; cbn [foldl list_to_set].
  - by rewrite (left_id_L ∅ (∪)).
  - rewrite IH. destruct (get s); rewrite dom_insert_L, (assoc_L (∪)); f_equal;
      apply (comm_L (∪)).
Qed.

Lemma collect_keys get (symbols : list string) :
  dom (collect get symbols) = list_to_set symbols.
Proof. unfold collect. by rewrite collect_keys_from, dom_empty_L, (right_id_L ∅ (∪)). Qed.

(** What the state writers do to the selected symbol and to the snapshot. *)
Lemma after_market_snapshot issued r st :
  selectedSymbol (after_market issued r st).1 = selectedSymbol st ∧
  (marketData (after_market issued r st).1 = marketData st ∨
   marketData (after_market issued r st).1 =
     foldl (fun m '(symbol, data) => <[symbol := data]> m) ∅
       (map (market_result issued (net r)) TRACKED_SYMBOLS)).
Proof.
  unfold after_market, fetchData_finally, safeSetState.
  destruct (isMounted st) eqn:Hm; cbn [negb fst].
  - split; [by destruct st | right; by destruct st].
  - split; [by destruct st | left; by destruct st].
Qed.

Lemma safeSetState_keeps {A B} (proj : dashboard → B) (setter : A → dashboard → dashboard)
    x st :
  (∀ y s, proj (setter y s) = proj s) → proj (safeSetState setter x st) = proj st.
Proof. intros H. unfold safeSetState. by destruct (isMounted st). Qed.

Lemma safeUpdate_keeps {A B} (proj : dashboard → B) (get : dashboard → A)
    (setter : A → dashboard → dashboard) f st :
  (∀ y s, proj (setter y s) = proj s) → proj (safeUpdate get setter f st) = proj st.
Proof. intros H. unfold safeUpdate. destruct (isMounted st); [|done]. by destruct (f _). Qed.

Ltac keeps_snapshot :=
  repeat first
    [ rewrite (safeSetState_keeps snapshot) by (by intros ? [])
    | rewrite (safeUpdate_keeps snapshot) by (by intros ? []) ].

Lemma fetchers_keep_snapshot net st :
  snapshot (fetchPositionData net st) = snapshot st ∧
  snapshot (fetchTradeData net st) = snapshot st ∧
  snapshot (fetchSystemHealth net st) = snapshot st ∧
  snapshot (fetchStrategiesStatus net st) = snapshot st ∧
  snapshot (fetchWalletData net st) = snapshot st.
Proof.
  unfold fetchPositionData, fetchTradeData, fetchSystemHealth, fetchStrategiesStatus,
    fetchWalletData.
  repeat split; repeat case_match; by keeps_snapshot.
Qed.

Lemma endings_keep_snapshot st :
  snapshot (fetchData_finally st) = snapshot st ∧
  (∀ err, snapshot (fetchData_catch err st) = snapshot st) ∧
  (∀ now, snapshot (fetchData_complete now st).1 = snapshot st).
Proof.
  assert (∀ s, snapshot (fetchData_finally s) = snapshot s) as Hfin.
  { intros s. unfold fetchData_finally. cbn zeta.
    assert (∀ b s', snapshot (set_fetchInProgress b s') = snapshot s') as -> by (by intros ? []).
    case_match; by keeps_snapshot. }
  split; [done|]. split.
  - intros err. unfold fetchData_catch. by keeps_snapshot.
  - intros now. unfold fetchData_complete. cbn [fst]. rewrite Hfin. by keeps_snapshot.
Qed.

Lemma other_steps_keep_snapshot r st :
  snapshot (after_strategies r st).1 = snapshot st ∧
  snapshot (after_basic r st).1 = snapshot st ∧
  (∀ a b c, snapshot (after_additional a b c r st).1 = snapshot st).
Proof.
  split; [|split].
  - unfold after_strategies, fetchAvailableStrategies, fetchData_throw.
    repeat case_match; simplify_eq; cbn [fst];
      rewrite ?(proj1 (proj2 (endings_keep_snapshot _))),
              ?(proj1 (endings_keep_snapshot _)),
              ?(proj1 (proj2 (endings_keep_snapshot _))); by keeps_snapshot.
  - unfold after_basic, fetchData_throw.
    repeat case_match; simplify_eq; cbn [fst];
      rewrite ?(proj1 (endings_keep_snapshot _)),
              ?(proj1 (proj2 (endings_keep_snapshot _))); by keeps_snapshot.
  - intros a b c. unfold after_additional.
    destruct (fetchers_keep_snapshot (net r) st) as (Hp & Ht & Hh & _).
    destruct (settles r), a, b, c; cbn [orb fst];
      rewrite ?(proj2 (proj2 (endings_keep_snapshot _))); done.
Qed.

Lemma resume_market p r st :
  selectedSymbol (resume p r st).1 = selectedSymbol st ∧
  (marketData (resume p r st).1 = marketData st ∨
   ∃ issued, marketData (resume p r st).1 =
     foldl (fun m '(symbol, data) => <[symbol := data]> m) ∅
       (map (market_result issued (net r)) TRACKED_SYMBOLS)).
Proof.
  destruct (other_steps_keep_snapshot r st) as (Hs & Hb & Hadd).
  unfold snapshot in Hs, Hb, Hadd.
  destruct p; unfold resume.
  - injection Hs as ??. destruct (settles r); auto.
  - injection Hb as ??. destruct (settles r); auto.
  - destruct (after_market_snapshot issued r st) as [? [?|?]];
      destruct (settles r); eauto.
  - specialize (Hadd positions trades health). injection Hadd as ??. auto.
Qed.

Lemma bystanders_keep_market st :
  (∀ st' p, fetchData st = (st', p) →
     selectedSymbol st' = selectedSymbol st ∧ marketData st' = marketData st) ∧
  (∀ result, selectedSymbol (handle_control result st).1.1 = selectedSymbol st ∧
             marketData (handle_control result st).1.1 = marketData st ∧
             Forall reconnects_tracked (handle_control result st).1.2) ∧
  (∀ net, selectedSymbol (fetchStrategiesStatus net st) = selectedSymbol st ∧
          marketData (fetchStrategiesStatus net st) = marketData st) ∧
  (∀ net, selectedSymbol (fetchMarketData net st) = selectedSymbol st ∧
          (marketData (fetchMarketData net st) = marketData st ∨
           marketData (fetchMarketData net st)
             = collect (getMarketData net) TRACKED_SYMBOLS)) ∧
  (∀ b, selectedSymbol (safeSetState setLoading b st) = selectedSymbol st ∧
        marketData (safeSetState setLoading b st) = marketData st).
Proof.
  destruct st. repeat split; intros; try destruct result;
    unfold fetchData in *; unfold_cycle; cbn in *;
    repeat case_match; simplify_eq; cbn; auto; repeat constructor.
Qed.

Lemma tracked_dom_insert (m : gmap string value) symbol v :
  dom m ⊆ list_to_set (C := gset string) TRACKED_SYMBOLS → symbol ∈ TRACKED_SYMBOLS →
  dom (<[symbol := v]> m) ⊆ list_to_set (C := gset string) TRACKED_SYMBOLS.
Proof.
  intros Hm Hs. rewrite dom_insert_L. apply union_least; [|done].
  by apply singleton_subseteq_l, elem_of_list_to_set.
Qed.

Lemma call_fetchData_tracked w : tracked_only w → tracked_only (call_fetchData w).
Proof.
  intros (Hk & Hsel & Hso & Hti). unfold call_fetchData.
  destruct (fetchData (dash w)) as [st p] eqn:E.
  apply (proj1 (bystanders_keep_market (dash w))) in E as [Es Em].
  split; cbn; by rewrite ?Es, ?Em.
Qed.

Lemma close_current_tracked w : tracked_only w → tracked_only (close_current w).
Proof.
  intros (Hk & Hsel & Hso & Hti). unfold close_current.
  destruct (wsRef w) as [i|]; [|done]. repeat split; try done. cbn.
  apply Forall_alter; [done|]. intros s _. unfold close. by destruct s as [? ? []].
Qed.

Lemma connectWebSocket_tracked symbol gen w :
  symbol ∈ TRACKED_SYMBOLS → tracked_only w → tracked_only (connectWebSocket symbol gen w).
Proof.
  intros Hs (Hk & Hsel & Hso & Hti). repeat split; try done. cbn.
  apply Forall_app. split; [done|]. by apply Forall_singleton.
Qed.

Lemma step_tracked e w : from_selector e → tracked_only w → tracked_only (step e w).
Proof.
  intros He Hw. pose proof Hw as (Hk & Hsel & Hso & Hti).
  destruct (bystanders_keep_market (dash w)) as (_ & Hctl & Hst & Hmk & Hld).
  destruct e as [| | |symbol|i r|result|pnet|pnet|i|i|i data|i|i|]; cbn [step].
  - by apply call_fetchData_tracked.
  - destruct (isMounted (dash w)); [|done]. apply call_fetchData_tracked.
    destruct (Hld true) as [Es Em]. split; cbn; by rewrite ?Es, ?Em.
  - destruct (isMounted (dash w)); [|done]. repeat split; try done. cbn.
    apply Forall_app. split; [done|]. by apply Forall_singleton.
  - destruct (_ && _); [|done]. cbn in He.
    apply connectWebSocket_tracked; [done|].
    assert (tracked_only (with_dash (setSelectedSymbol symbol (dash w)) w)) as Hw'.
    { destruct (dash w). by repeat split. }
    apply close_current_tracked in Hw' as (? & ? & ? & ?). by repeat split.
  - destruct (cycles w !! i) as [p|]; [|done].
    destruct (resume_market p r (dash w)) as [Es Em].
    destruct (resume p r (dash w)) as [st pr]. cbn [fst] in Es, Em.
    repeat split; cbn; try done; [|by rewrite Es].
    destruct Em as [->|[issued ->]]; [done|].
    by rewrite newMarketData_keys, dom_empty_L, (right_id_L ∅ (∪)).
  - destruct (Hctl result) as (Es & Em & Hts).
    destruct (handle_control result (dash w)) as [[st ts] v]. cbn [fst snd] in *.
    repeat split; cbn; rewrite ?Es, ?Em; try done. by apply Forall_app.
  - destruct (Hst pnet) as [Es Em]. repeat split; cbn; by rewrite ?Es, ?Em.
  - destruct (Hmk pnet) as [Es Em]. repeat split; cbn; rewrite ?Es; try done.
    destruct Em as [->| ->]; [done|]. by rewrite collect_keys.
  - destruct (timers w !! i) as [t|] eqn:Hi; [|done].
    assert (tracked_only (with_timers (delete i (timers w)) w)) as Hw'.
    { repeat split; try done. cbn. by apply Forall_delete. }
    eapply Forall_lookup_1 in Hti; [|done]. unfold reconnects_tracked in Hti.
    destruct (callback t); cbn [run_callback].
    + cbn [dash with_timers]. destruct (isMounted (dash w)); [|done].
      by apply call_fetchData_tracked.
    + by apply connectWebSocket_tracked.
  - destruct (sockets w !! i) as [[s g []]|] eqn:Hi; try done.
    pose proof (Forall_lookup_1 _ _ _ _ Hso Hi) as Hs. cbn in Hs.
    repeat split; try done. cbn. by apply Forall_insert.
  - destruct (sockets w !! i) as [[s g []]|] eqn:Hi; try done.
    pose proof (Forall_lookup_1 _ _ _ _ Hso Hi) as Hs. cbn in Hs.
    destruct data as [d|]; [|done].
    split; [|split; [|split]]; cbn [dash with_dash sockets timers]; try done.
    replace (marketData (onmessage s (Some d) (dash w))) with
        (<[s := spread2 (default VUndef (marketData (dash w) !! s)) d]> (marketData (dash w)))
        by (by destruct (dash w)).
      by apply tracked_dom_insert.
  - destruct (sockets w !! i) as [[s g rs]|] eqn:Hi; [|done].
    pose proof (Forall_lookup_1 _ _ _ _ Hso Hi) as Hs. cbn in Hs.
    assert (tracked_only
              (with_timers (timers w ++ [Timer 5000 (CbReconnect s g)])
                 (with_sockets (<[i := Socket s g CLOSED]> (sockets w)) w))) as Hw'.
    { split; [|split; [|split]]; cbn; try done.
      - by apply Forall_insert.
      - apply Forall_app. split; [done|]. by apply Forall_singleton. }
    by destruct rs.
  - done.
  - destruct (isMounted (dash w)); [|done].
    apply close_current_tracked in Hw as (? & ? & ? & ?).
    by repeat split.
Qed.

Lemma mounted_tracked : tracked_only mounted.
Proof.
  repeat split; cbn.
  - rewrite dom_empty_L. apply empty_subseteq.
  - unfold TRACKED_SYMBOLS. by left.
  - apply Forall_singleton. cbn. unfold TRACKED_SYMBOLS. by left.
  - constructor.
Qed.

Lemma run_tracked evs :
  Forall from_selector evs → tracked_only (run evs mounted).
Proof.
  unfold run. induction evs as [|e evs IH] using rev_ind; intros He.
  - apply mounted_tracked.
  - apply Forall_app in He as [Hevs He].
    apply Forall_inv in He.
    rewrite foldl_snoc. apply step_tracked; [exact He | exact (IH Hevs)].
Qed.

(** X1: while the component is mounted, [fetchInProgress] is set exactly
    when a cycle is suspended: the flag is never left set without a cycle.
    While a cycle is active neither poll interval starts a fetch. *)
Theorem fetch_flag_tracks_cycle evs :
  isMounted (dash (run evs mounted)) = true →
  (fetchInProgress (dash (run evs mounted)) = true ↔ cycles (run evs mounted) ≠ []) ∧
  (cycles (run evs mounted) ≠ [] →
     light_poll_due (dash (run evs mounted)) = false ∧
     status_poll_due (dash (run evs mounted)) = false).
Proof.
  intros Hm. destruct (run_coherent evs) as [_ Hc].
  destruct (Hc Hm) as (Hflag & _). split; [done|].
  intros Hne. apply Hflag in Hne. unfold light_poll_due, status_poll_due.
  rewrite Hne, Hm. split; [done|]. by destruct (connectionStatus _).
Qed.

Lemma fetch_flag_witness :
  (fetchInProgress (dash (run [EvFetchData] mounted)) = true ↔
     cycles (run [EvFetchData] mounted) ≠ []) ∧
  (cycles (run [EvFetchData] mounted) ≠ [] →
     light_poll_due (dash (run [EvFetchData] mounted)) = false ∧
     status_poll_due (dash (run [EvFetchData] mounted)) = false).
Proof. apply (fetch_flag_tracks_cycle [EvFetchData]). reflexivity. Defined.

(** X2: while the component is mounted, the connection status follows the
    cycle: it is [connecting] while the cycle waits for the strategy list or
    the health check, [connected] while it waits for market or additional
    data, and [connected] or [error] when no cycle is active; it is never
    [disconnected] again after the mount. *)
Theorem connection_status_follows_cycle evs :
  isMounted (dash (run evs mounted)) = true →
  (∀ p, p ∈ cycles (run evs mounted) →
     connectionStatus (dash (run evs mounted)) = phase_status p) ∧
  (cycles (run evs mounted) = [] →
     connectionStatus (dash (run evs mounted)) = connected ∨
     connectionStatus (dash (run evs mounted)) = conn_error) ∧
  connectionStatus (dash (run evs mounted)) ≠ disconnected.
Proof.
  intros Hm. destruct (run_coherent evs) as [_ Hc].
  destruct (Hc Hm) as (_ & _ & Hphase & Hidle). split; [done|]. split; [done|].
  destruct (cycles (run evs mounted)) as [|p ps] eqn:Ec.
  - destruct (Hidle eq_refl) as [-> | ->]; done.
  - rewrite (Hphase p) by (by left). by destruct p.
Qed.

Lemma connection_status_witness :
  (∀ p, p ∈ cycles (run [EvRefresh] mounted) →
     connectionStatus (dash (run [EvRefresh] mounted)) = phase_status p) ∧
  (cycles (run [EvRefresh] mounted) = [] →
     connectionStatus (dash (run [EvRefresh] mounted)) = connected ∨
     connectionStatus (dash (run [EvRefresh] mounted)) = conn_error) ∧
  connectionStatus (dash (run [EvRefresh] mounted)) ≠ disconnected.
Proof. apply (connection_status_follows_cycle [EvRefresh]). reflexivity. Defined.

(** X3: while the component is mounted, the loading flag is only set while a
    cycle is active, and whichever way that cycle ends it clears the flag. *)
Theorem spinner_needs_cycle evs :
  isMounted (dash (run evs mounted)) = true →
  (loading (dash (run evs mounted)) = true → cycles (run evs mounted) ≠ []) ∧
  ∀ p r o, p ∈ cycles (run evs mounted) →
    (resume p r (dash (run evs mounted))).2 = Finished o →
    loading (resume p r (dash (run evs mounted))).1 = false.
Proof.
  intros Hm. destruct (run_coherent evs) as [_ Hc].
  destruct (Hc Hm) as (_ & Hload & Hphase & _). split; [done|].
  intros p r o Hp Ho.
  destruct (resume p r (dash (run evs mounted))) as [st pr] eqn:E.
  cbn in Ho. subst pr. apply resume_status in E; [by destruct E|done|by apply Hphase].
Qed.

Lemma spinner_witness :
  (loading (dash (run [EvRefresh] mounted)) = true → cycles (run [EvRefresh] mounted) ≠ []) ∧
  ∀ p r o, p ∈ cycles (run [EvRefresh] mounted) →
    (resume p r (dash (run [EvRefresh] mounted))).2 = Finished o →
    loading (resume p r (dash (run [EvRefresh] mounted))).1 = false.
Proof. apply (spinner_needs_cycle [EvRefresh]). reflexivity. Defined.

(** X4: as long as symbols are picked with the selector, the keys of
    [marketData] are tracked symbols, whatever cycles, polls, pushes,
    reconnects and teardown have happened; so is the selected symbol. *)
Theorem market_keys_are_tracked evs :
  Forall from_selector evs →
  dom (marketData (dash (run evs mounted))) ⊆ list_to_set (C := gset string) TRACKED_SYMBOLS ∧
  selectedSymbol (dash (run evs mounted)) ∈ TRACKED_SYMBOLS.
Proof. intros He. by destruct (run_tracked evs He) as (? & ? & _). Qed.

Lemma market_keys_witness :
  dom (marketData (dash (run [EvWsOpen 0; EvSelectSymbol "ETHUSD";
                              EvWsMessage 0 (Some (VObj {[ "price" := VNum 2 ]}))]
                         mounted)))
    ⊆ list_to_set (C := gset string) TRACKED_SYMBOLS ∧
  selectedSymbol (dash (run [EvWsOpen 0; EvSelectSymbol "ETHUSD";
                             EvWsMessage 0 (Some (VObj {[ "price" := VNum 2 ]}))]
                        mounted)) ∈ TRACKED_SYMBOLS.
Proof.
  apply (market_keys_are_tracked
           [EvWsOpen 0; EvSelectSymbol "ETHUSD";
            EvWsMessage 0 (Some (VObj {[ "price" := VNum 2 ]}))]).
  repeat constructor.
Defined.

(** X5: a poll replaces the market snapshot wholesale: whatever a push had
    patched into it before is gone after the next [fetchMarketData], and
    the same holds for the snapshot a cycle stores. *)
Theorem poll_discards_push net symbol data st :
  isMounted st = true →
  fetchMarketData net (onmessage symbol data st) = fetchMarketData net st ∧
  ∀ issued r, after_market issued r (onmessage symbol data st) = after_market issued r st.
Proof.
  intros Hm. destruct st; simpl in Hm; subst. by destruct data.
Qed.

Lemma poll_discards_push_witness :
  fetchMarketData offline (onmessage "BTCUSD" (Some (VObj {[ "price" := VNum 2 ]})) initial)
    = fetchMarketData offline initial ∧
  ∀ issued r,
    after_market issued r (onmessage "BTCUSD" (Some (VObj {[ "price" := VNum 2 ]})) initial)
    = after_market issued r initial.
Proof.
  apply (poll_discards_push offline "BTCUSD" (Some (VObj {[ "price" := VNum 2 ]})) initial).
  reflexivity.
Defined.

End DashboardStateFacts.

(** ** After teardown *)

Section TeardownFacts.
Import APIService TradingDashboard DashboardState.

Lemma unmounted_step e w :
  isMounted (dash w) = false →
  isMounted (dash (step e w)) = false ∧
  length (cycles (step e w)) ≤ length (cycles w) ∧
  setMarketData (marketData (dash w)) (viewModel (dash (step e w))) = viewModel (dash w) ∧
  (is_ws_message e = false → viewModel (dash (step e w)) = viewModel (dash w)).
Proof.
  intros Hm.
  assert (∀ st, setMarketData (marketData st) (viewModel st) = viewModel st) as Hid.
  { by intros []. }
  destruct e as [| | |symbol|i r|result|pnet|pnet|i|i|i data|i|i|]; cbn [step is_ws_message].
  - unfold call_fetchData. rewrite fetchData_dropped by auto. cbn.
    rewrite app_nil_r. by rewrite Hm, Hid.
  - by rewrite Hm, Hid.
  - by rewrite Hm, Hid.
  - by rewrite Hm, Hid.
  - destruct (cycles w !! i) as [p|] eqn:Hp; [|by rewrite Hm, Hid].
    destruct (resume p r (dash w)) as [st pr] eqn:E.
    pose proof (guarded_continuations_after_unmount p r (Rejected typeError) offline _ Hm)
      as [Hv _].
    rewrite E in Hv. cbn in Hv.
    apply resume_refs in E as [Hm' _]. cbn. rewrite Hm', Hm, Hv, Hid.
    repeat split; [|done..].
    destruct pr; [by rewrite length_insert|].
    rewrite length_delete by eauto. lia.
  - pose proof (guarded_continuations_after_unmount AwaitBasic (Resumption Main offline 0)
                  result offline _ Hm) as (_ & Hc & _).
    destruct (handle_control result (dash w)) as [[st ts] v]. cbn in Hc. simplify_eq.
    cbn. by rewrite Hm, Hid.
  - pose proof (guarded_continuations_after_unmount AwaitBasic (Resumption Main offline 0)
                  (Rejected typeError) pnet _ Hm) as (_ & _ & -> & _).
    cbn. by rewrite Hm, Hid.
  - pose proof (guarded_continuations_after_unmount AwaitBasic (Resumption Main offline 0)
                  (Rejected typeError) pnet _ Hm) as (_ & _ & _ & -> & _).
    cbn. by rewrite Hm, Hid.
  - destruct (timers w !! i) as [[d [|symbol gen]]|]; cbn; rewrite ?Hm, ?Hid; done.
  - destruct (sockets w !! i) as [[symbol gen []]|]; cbn; rewrite ?Hm, ?Hid; done.
  - split; [|split; [|split]]; [..|done].
    + destruct (sockets w !! i) as [[symbol gen []]|]; cbn; try done.
      by destruct data; cbn.
    + by destruct (sockets w !! i) as [[symbol gen []]|].
    + destruct (sockets w !! i) as [[symbol gen []]|]; cbn; rewrite ?Hid; try done.
      destruct data; cbn; [|by rewrite Hid]. by destruct (dash w).
  - destruct (sockets w !! i) as [[symbol gen []]|]; cbn; rewrite ?Hm, ?Hid; done.
  - by rewrite Hm, Hid.
  - by rewrite Hm, Hid.
Qed.

(** X6: once the component is unmounted it stays unmounted, no sync cycle
    is started any more, and whatever happens afterwards (promises settle,
    timers fire, sockets open and close) no slice other than [marketData]
    changes; [marketData] itself changes only through WebSocket messages. *)
Theorem unmounted_component_is_silent evs w :
  isMounted (dash w) = false →
  isMounted (dash (run evs w)) = false ∧
  length (cycles (run evs w)) ≤ length (cycles w) ∧
  setMarketData (marketData (dash w)) (viewModel (dash (run evs w))) = viewModel (dash w) ∧
  (Forall (fun e => is_ws_message e = false) evs →
   viewModel (dash (run evs w)) = viewModel (dash w)).
Proof.
  unfold run. induction evs as [|e evs IH] using rev_ind; intros Hm.
  - cbn. repeat split; try done; by destruct (dash w).
  - rewrite foldl_snoc. destruct (IH Hm) as (Hm' & Hc & Hv & Hq).
    destruct (unmounted_step e _ Hm') as (Hm'' & Hc' & Hv' & Hq').
    split; [done|]. split; [lia|]. split.
    + rewrite <- Hv, <- Hv'. by destruct (dash (step e _)).
    + intros [Hevs He%Forall_inv]%Forall_app. by rewrite Hq', Hq.
Qed.

Lemma unmounted_component_witness :
  let w := run [EvWsOpen 0; EvUnmount] mounted in
  let evs := [EvResume 0 (Resumption Main offline 0); EvFetchData; EvWsClose 0; EvTimer 0] in
  isMounted (dash w) = false ∧
  (isMounted (dash (run evs w)) = false ∧
   length (cycles (run evs w)) ≤ length (cycles w) ∧
   setMarketData (marketData (dash w)) (viewModel (dash (run evs w))) = viewModel (dash w) ∧
   (Forall (fun e => is_ws_message e = false) evs →
    viewModel (dash (run evs w)) = viewModel (dash w))).
Proof.
  split; [reflexivity|].
  apply (unmounted_component_is_silent
           [EvResume 0 (Resumption Main offline 0); EvFetchData; EvWsClose 0; EvTimer 0]
           (run [EvWsOpen 0; EvUnmount] mounted)).
  reflexivity.
Defined.

End TeardownFacts.

(** ** Requests and the start of a strategy *)

Section RequestFacts.
Import APIService TradingDashboard.

Lemma request_catch_name e : err_name (request_catch e) ≠ "AbortError".
Proof.
  unfold request_catch. destruct (String.eqb (err_name e) "AbortError") eqn:E; [done|].
  by apply String.eqb_neq.
Qed.

Lemma request_rejected net r e :
  request net r = Rejected e → ∃ e0, e = request_catch e0.
Proof.
  unfold request. destruct (net r) as [e0|[] status [text|e1] [data|e2]]; intros; simplify_eq; eauto.
Qed.

(** X7: [request] fulfils exactly when the response is ok and its body
    parses, with the parsed body.  No method of the client ever rejects with
    an [AbortError]: an aborted request is reported as the error "Request
    timed out after 15s", and a response that is not ok as "API Error:
    <status> - <body text>". *)
Theorem request_failures_are_normalised net r :
  (∀ v, request net r = Fulfilled v ↔
        ∃ status text, net r = FetchResponds true status text (Fulfilled v)) ∧
  (∀ c e, invoke net c = Rejected e → err_name e ≠ "AbortError") ∧
  (∀ msg, net r = FetchRejects (JsError "AbortError" msg) →
          request net r = Rejected (mkError "Request timed out after 15s")) ∧
  (∀ status text json, net r = FetchResponds false status (Fulfilled text) json →
          request net r
          = Rejected (mkError ("API Error: " +:+ pretty status +:+ " - " +:+ text))).
Proof.
  split; [|split; [|split]].
  - intros v. unfold request. split.
    + destruct (net r) as [e0|[] status [text|e1] [data|e2]]; intros; simplify_eq; eauto.
    + by intros (status & text & ->).
  - intros c e He.
    assert (∃ r', request net r' = Rejected e) as [r' Hr].
    { destruct c; cbn in He;
        unfold getAvailableStrategies, getHealth, getAllStrategiesStatus, getWallet,
          getMarketData, getPositions, getTrades, getTradeStats, startStrategy, stopStrategy,
          getSystemHealth, getSMCAnalysis, getCandles in He;
        rewrite ?rethrow_id in He; eauto;
        match type of He with
        | recover ?p ?fb = _ => destruct (recover_fulfilled p fb) as [v Hv]; congruence
        end. }
    apply request_rejected in Hr as [e0 ->]. apply request_catch_name.
  - intros msg Hn. unfold request. by rewrite Hn.
  - intros status text json Hn. unfold request. by rewrite Hn.
Qed.

Lemma request_failures_witness :
  let net : network := fun _ => FetchRejects (JsError "AbortError" "signal is aborted") in
  net (GET "/health") = FetchRejects (JsError "AbortError" "signal is aborted") ∧
  request net (GET "/health") = Rejected (mkError "Request timed out after 15s").
Proof.
  split; [reflexivity|].
  apply (proj1 (proj2 (proj2 (request_failures_are_normalised
                                (fun _ => FetchRejects (JsError "AbortError" "signal is aborted"))
                                (GET "/health")))) "signal is aborted").
  reflexivity.
Defined.

(** X8: the body of the start request.  [handleStartStrategy] always sends
    a [strategy_name]: the one of the panel's configuration when that is
    truthy, the selected strategy type otherwise.  The other fields are
    those of the configuration; a [symbol] field of the configuration
    replaces the symbol the panel was opened for.  With a configuration
    that is [null] or [undefined] no request is made and the panel gets a
    failure. *)
Theorem start_request_body net symbol config st :
  (is_nullish config = true →
     handleStartStrategy net symbol config st = (st, [], failure_of typeError)) ∧
  (is_nullish config = false →
     ∃ body,
       handleStartStrategy net symbol config st
       = handle_control (request net (POST "/strategies/start" (VObj body))) st ∧
       body !! "strategy_name"
       = Some (js_or (js_get config "strategy_name") (VStr (selectedStrategyType st))) ∧
       body !! "symbol" = Some (default (VStr symbol) (own_props config !! "symbol")) ∧
       ∀ k, k ≠ "strategy_name" → k ≠ "symbol" → body !! k = own_props config !! k).
Proof.
  unfold handleStartStrategy, finalConfig. split; intros ->; [done|].
  eexists. split; [reflexivity|]. cbn [own_props]. repeat split.
  - rewrite lookup_union, lookup_insert_eq. by destruct (_ !! _).
  - rewrite lookup_union, lookup_insert_ne by done. rewrite lookup_singleton_eq.
    by destruct (own_props config !! "symbol").
  - intros k Hk Hs. rewrite lookup_union, lookup_insert_ne, lookup_singleton_ne by done.
    by destruct (own_props config !! k).
Qed.

Lemma start_request_witness :
  let config := VObj {[ "symbol" := VStr "ETHUSD"; "timeframe" := VStr "1m" ]} in
  is_nullish config = false ∧
  ∃ body,
    handleStartStrategy offline "BTCUSD" config initial
    = handle_control (request offline (POST "/strategies/start" (VObj body))) initial ∧
    body !! "strategy_name"
    = Some (js_or (js_get config "strategy_name") (VStr (selectedStrategyType initial))) ∧
    body !! "symbol" = Some (default (VStr "BTCUSD") (own_props config !! "symbol")) ∧
    ∀ k, k ≠ "strategy_name" → k ≠ "symbol" → body !! k = own_props config !! k.
Proof.
  split; [reflexivity|].
  apply (proj2 (start_request_body offline "BTCUSD"
                  (VObj {[ "symbol" := VStr "ETHUSD"; "timeframe" := VStr "1m" ]}) initial)).
  reflexivity.
Defined.

End RequestFacts.

(** ** What the alert panel shows *)

Section AlertsViewFacts.
Import AlertsPanel AlertsView.

(** An alert is in the merged list exactly when it is younger than 24
    hours and either was in the list before or is a derived alert whose id
    the list did not hold. *)
Lemma merge_membership t derived prev x :
  x ∈ merge t derived prev ↔
  (t - 24 * 60 * 60 * 1000 < timestamp x)%Z ∧
  (x ∈ prev ∨ (x ∈ derived ∧ id x ∉ map id prev)).
Proof.
  unfold merge. rewrite merge_sort_Permutation, list_elem_of_filter, elem_of_app,
    list_elem_of_filter, negb_true_iff.
  rewrite <- not_true_iff_false, includes_elem_of. tauto.
Qed.

(** X9: a merge never refreshes an alert: an id the list already holds
    keeps its old alert and timestamp, and once that alert is older than 24
    hours the id is absent from the merged list, even when the alert has
    just been derived again. *)
Theorem merge_keeps_old_alert t derived prev b :
  unique_ids prev → b ∈ prev →
  (∀ x, x ∈ merge t derived prev → id x = id b → x = b) ∧
  ((timestamp b <= t - 24 * 60 * 60 * 1000)%Z → id b ∉ map id (merge t derived prev)).
Proof.
  intros Hu Hb.
  assert (∀ x, x ∈ merge t derived prev → id x = id b → x = b) as Hold.
  { intros x [_ [Hx|[_ Hx]]]%merge_membership Hid.
    - unfold unique_ids in Hu. change (map id prev) with (id <$> prev) in Hu.
      apply list_elem_of_lookup in Hx as [i Hi], Hb as [j Hj].
      assert (i = j) as ->; [|congruence].
      eapply NoDup_lookup; [exact Hu|..]; rewrite list_lookup_fmap.
      + by rewrite Hi.
      + by rewrite Hj, Hid.
    - exfalso. apply Hx. rewrite Hid. change (map id prev) with (id <$> prev).
      by apply list_elem_of_fmap_2. }
  split; [done|]. intros Hexp Hin.
  change (map id ?l) with (id <$> l) in Hin.
  apply list_elem_of_fmap in Hin as (x & Hid & Hx).
  pose proof (Hold x Hx (eq_sym Hid)) as ->.
  apply merge_membership in Hx as [Hx _]. lia.
Qed.

Lemma merge_keeps_old_alert_witness :
  let b := sample_alert 0 in
  let t := 90000000%Z in
  unique_ids [b] ∧ b ∈ [b] ∧
  (∀ x, x ∈ merge t [sample_alert t] [b] → id x = id b → x = b) ∧
  ((timestamp b <= t - 24 * 60 * 60 * 1000)%Z →
   id b ∉ map id (merge t [sample_alert t] [b])).
Proof.
  split; [apply NoDup_singleton|]. split; [constructor|].
  apply (merge_keeps_old_alert 90000000 [sample_alert 90000000] [sample_alert 0]
           (sample_alert 0)).
  - apply NoDup_singleton.
  - constructor.
Defined.

Section Platform.
Variable parseFloat : value → float.
Variable toFixed1 : float → string.
Variable getTime : value → option Z.

(** X10: dismissing removes exactly the alerts with that id and leaves the
    others in place, but the dismissal is not remembered: when the effect
    runs again and derives an alert with the dismissed id, the alert is
    back in the list. *)
Theorem dismissal_is_not_remembered alerts t strategies positions derived a :
  newAlerts parseFloat toFixed1 getTime t strategies positions = Some derived →
  a ∈ derived →
  (id a ∉ map id (dismissAlert (id a) alerts)) ∧
  (∀ b, id b ≠ id a → (b ∈ dismissAlert (id a) alerts ↔ b ∈ alerts)) ∧
  (a ∈ apply parseFloat toFixed1 getTime (Effect t strategies positions)
         (dismissAlert (id a) alerts)).
Proof.
  intros Hd Ha.
  assert (id a ∉ map id (dismissAlert (id a) alerts)) as Hgone.
  { change (map id ?l) with (id <$> l).
    intros (b & Hid & [Hb _]%list_elem_of_filter)%list_elem_of_fmap. by apply Hb. }
  split; [done|]. split.
  - intros b Hb. unfold dismissAlert. rewrite list_elem_of_filter. tauto.
  - cbn [apply]. rewrite Hd. apply merge_membership. split; [|by right].
    apply newAlerts_unique in Hd as [_ Ht]. rewrite Forall_forall in Ht.
    rewrite (Ht a Ha). lia.
Qed.

(** X11: the collapsed panel shows at most five alerts, and they are the
    newest: no hidden alert is newer than a shown one.  The expanded panel
    shows them all. *)
Theorem displayed_alerts_are_newest actions :
  let alerts := history parseFloat toFixed1 getTime actions in
  length (displayedAlerts false alerts) ≤ 5 ∧
  displayedAlerts true alerts = alerts ∧
  ∀ a b, a ∈ displayedAlerts false alerts → b ∈ alerts →
         b ∉ displayedAlerts false alerts → (timestamp b <= timestamp a)%Z.
Proof.
  intros alerts. split; [|split]; [|done|].
  - cbn. rewrite length_take. lia.
  - intros a b Ha Hb Hnb. cbn in Ha, Hnb.
    destruct (history_invariant parseFloat toFixed1 getTime actions) as [Hs _].
    fold alerts in Hs. unfold sorted_desc in Hs.
    rewrite <- (take_drop 5 alerts) in Hb, Hs.
    apply elem_of_app in Hb as [Hb|Hb]; [done|].
    by apply (StronglySorted_app_1_elem_of _ _ _ _ _ Hs Ha Hb).
Qed.

Lemma strategy_alerts_rules t symbol strategy l :
  strategy_alerts getTime t symbol strategy = Some l →
  Forall rule_outcome l ∧ length l ≤ 2 ∧
  (truthy (js_get strategy "running") = false → l = []).
Proof.
  unfold strategy_alerts, rule_outcome. intros H.
  repeat case_match; simplify_eq; cbn;
    (split; [repeat constructor; cbn; tauto | split; [lia | done]]).
Qed.

Lemma position_alerts_rules t index position l :
  position_alerts parseFloat toFixed1 t index position = Some l →
  Forall rule_outcome l ∧ length l ≤ 1 ∧ Forall (fun a => type a ≠ error) l.
Proof.
  unfold position_alerts, rule_outcome. intros H.
  repeat case_match; simplify_eq; cbn;
    (split; [repeat constructor; cbn; tauto | split; [lia | by repeat constructor]]).
Qed.

Lemma batch_rules {X} (f : X → option (list alert)) (P : alert → Prop) n xs ls :
  (∀ x l, x ∈ xs → f x = Some l → Forall P l ∧ length l ≤ n) →
  mapM f xs = Some ls →
  Forall P (concat ls) ∧ length (concat ls) ≤ n * length xs.
Proof.
  intros Hf H. apply mapM_Some_1 in H.
  induction H as [|x l xs ls Hx _ IH]; cbn [concat length].
  - split; [constructor | lia].
  - destruct (Hf x l) as [HP Hn]; [by left | done |].
    destruct IH as [HPs Hns]; [intros y k Hy; apply Hf; by right|].
    split; [by apply Forall_app|]. rewrite length_app. lia.
Qed.

Lemma newAlerts_rule_outcome t strategies positions derived :
  newAlerts parseFloat toFixed1 getTime t strategies positions = Some derived →
  Forall rule_outcome derived.
Proof.
  unfold newAlerts. intros H.
  destruct (mapM _ (map_to_list _)) as [fs|] eqn:Es; [|done].
  destruct (mapM _ (imap pair _)) as [fp|] eqn:Ep; [|done].
  cbn in H. simplify_eq.
  apply (batch_rules _ rule_outcome 2) in Es as [Hs _].
  2: { intros [symbol strategy] l _ Hl. apply strategy_alerts_rules in Hl. tauto. }
  apply (batch_rules _ rule_outcome 1) in Ep as [Hp _].
  2: { intros [index position] l _ Hl. apply position_alerts_rules in Hl. tauto. }
  by apply Forall_app.
Qed.

(** X12: what one run of the effect derives.  Every alert is made by one
    of the four rules (strategy error: error/high, long-running strategy:
    warning/low, position in profit: success/medium, position at loss:
    warning/high), there are at most two per strategy and one per
    position, and a strategy that is not running raises nothing, whatever
    its [error] field says: when no strategy runs, the alerts come from the
    positions alone and none is an error. *)
Theorem derived_alerts_follow_rules t strategies positions derived :
  newAlerts parseFloat toFixed1 getTime t strategies positions = Some derived →
  Forall rule_outcome derived ∧
  length derived ≤ 2 * size (own_props (js_or strategies (VObj ∅)))
                   + length (default [] positions) ∧
  ((∀ symbol strategy,
      own_props (js_or strategies (VObj ∅)) !! symbol = Some strategy →
      truthy (js_get strategy "running") = false) →
   length derived ≤ length (default [] positions) ∧
   Forall (fun a => type a ≠ error) derived).
Proof.
  intros H. split; [by eapply newAlerts_rule_outcome|].
  unfold newAlerts in H.
  destruct (mapM _ (map_to_list _)) as [fs|] eqn:Es; [|done].
  destruct (mapM _ (imap pair _)) as [fp|] eqn:Ep; [|done].
  cbn in H. simplify_eq.
  pose proof Es as Es'. pose proof Ep as Ep'.
  apply (batch_rules _ (fun _ => True) 2) in Es as [_ Hsn].
  2: { intros [symbol strategy] l _ Hl. apply strategy_alerts_rules in Hl.
       split; [by apply Forall_true | tauto]. }
  apply (batch_rules _ (fun _ => True) 1) in Ep as [_ Hpn].
  2: { intros [index position] l _ Hl. apply position_alerts_rules in Hl.
       split; [by apply Forall_true | tauto]. }
  rewrite length_map_to_list in Hsn. rewrite length_imap in Hpn.
  rewrite length_app. split; [lia|].
  intros Hstopped.
  apply (batch_rules _ (fun a => type a ≠ error) 0) in Es' as [Hs' Hsn'].
  2: { intros [symbol strategy] l Hx%elem_of_map_to_list Hl.
       apply strategy_alerts_rules in Hl as (_ & _ & ->); [|by eapply Hstopped].
       split; [constructor | done]. }
  apply (batch_rules _ (fun a => type a ≠ error) 1) in Ep' as [Hp' _].
  2: { intros [index position] l _ Hl. apply position_alerts_rules in Hl. tauto. }
  split; [lia | by apply Forall_app].
Qed.

Lemma apply_rules a alerts :
  Forall rule_outcome alerts →
  Forall rule_outcome (apply parseFloat toFixed1 getTime a alerts).
Proof.
  intros Hr. destruct a as [t strategies positions|alertId|]; cbn [apply].
  - destruct (newAlerts _ _ _ t strategies positions) as [derived|] eqn:E; [|done].
    apply newAlerts_rule_outcome in E as Hd.
    rewrite Forall_forall in Hr, Hd. apply Forall_forall.
    intros x [_ [Hx|[Hx _]]]%merge_membership; auto.
  - rewrite Forall_forall in Hr. apply Forall_forall.
    intros x [_ Hx]%list_elem_of_filter. auto.
  - constructor.
Qed.

Lemma counts_partition alerts :
  Forall rule_outcome alerts →
  count_type error alerts + count_type warning alerts + count_type success alerts
  = length alerts ∧ count_type info alerts = 0.
Proof.
  unfold count_type. induction 1 as [|a alerts Ha _ [IH1 IH2]]; [done|].
  rewrite !filter_cons.
  destruct Ha as [[Ht _]|[[Ht _]|[[Ht _]|[Ht _]]]]; rewrite Ht;
    repeat (case_decide; try done); cbn [length]; split; lia.
Qed.

(** X13: the summary under the list.  Whatever the panel has gone through,
    its counters of errors, warnings and successes add up to the number of
    alerts, because no alert of type [info] is ever in the list; and the
    urgent marker is shown exactly when the counter of high-priority alerts
    is not zero. *)
Theorem summary_counts_cover_all_alerts actions :
  let alerts := history parseFloat toFixed1 getTime actions in
  count_type error alerts + count_type warning alerts + count_type success alerts
  = length alerts ∧
  count_type info alerts = 0 ∧
  (hasHighPriority alerts = true ↔ 0 < count_high alerts).
Proof.
  intros alerts.
  assert (Forall rule_outcome alerts) as Hr.
  { unfold alerts, history. induction actions as [|a actions IH] using rev_ind.
    - constructor.
    - rewrite foldl_snoc. by apply apply_rules. }
  destruct (counts_partition _ Hr) as [H1 H2]. split; [done|]. split; [done|].
  unfold hasHighPriority, count_high. clear. induction alerts as [|a alerts IH]; [cbn; lia|].
  cbn [existsb]. rewrite filter_cons, orb_true_iff, IH.
  case_bool_decide; case_decide; try done; cbn [length]; split; try lia; intros; auto.
Qed.

(** X14: the panel as the dashboard mounts it.  The dashboard passes
    neither [strategies] nor [positions], so every run of the effect
    derives nothing and the alert list stays empty whatever the user does. *)
Theorem alerts_panel_in_dashboard_stays_empty actions :
  Forall from_dashboard actions →
  history parseFloat toFixed1 getTime actions = [].
Proof.
  unfold history. induction actions as [|a actions IH] using rev_ind; [done|].
  intros [Hall Ha%Forall_inv]%Forall_app. rewrite foldl_snoc, (IH Hall).
  destruct a as [t strategies positions|alertId|]; [|done..].
  destruct Ha as [-> ->]. reflexivity.
Qed.


End Platform.

Lemma dismissal_witness :
  let t := 1700000000000%Z in
  newAlerts sample_parseFloat sample_toFixed1 sample_getTime t (VObj ∅)
    (Some [sample_position]) = Some [sample_alert t] ∧
  sample_alert t ∈ [sample_alert t] ∧
  (id (sample_alert t) ∉ map id (dismissAlert (id (sample_alert t)) [sample_alert t])) ∧
  (∀ b, id b ≠ id (sample_alert t) →
        (b ∈ dismissAlert (id (sample_alert t)) [sample_alert t] ↔ b ∈ [sample_alert t])) ∧
  (sample_alert t ∈
     apply sample_parseFloat sample_toFixed1 sample_getTime
       (Effect t (VObj ∅) (Some [sample_position]))
       (dismissAlert (id (sample_alert t)) [sample_alert t])).
Proof.
  split; [by vm_compute|]. split; [constructor|].
  apply (dismissal_is_not_remembered sample_parseFloat sample_toFixed1 sample_getTime
           [sample_alert 1700000000000] 1700000000000 (VObj ∅) (Some [sample_position])
           [sample_alert 1700000000000] (sample_alert 1700000000000)).
  - by vm_compute.
  - constructor.
Defined.

Lemma derived_alerts_witness :
  let t := 1700000000000%Z in
  let derived := [sample_alert t] in
  newAlerts sample_parseFloat sample_toFixed1 sample_getTime t (VObj ∅)
    (Some [sample_position]) = Some derived ∧
  Forall rule_outcome derived ∧
  length derived ≤ 2 * size (own_props (js_or (VObj ∅) (VObj ∅)))
                   + length (default [] (Some [sample_position])) ∧
  ((∀ symbol strategy,
      own_props (js_or (VObj ∅) (VObj ∅)) !! symbol = Some strategy →
      truthy (js_get strategy "running") = false) →
   length derived ≤ length (default [] (Some [sample_position])) ∧
   Forall (fun a => type a ≠ error) derived).
Proof.
  split; [by vm_compute|].
  apply (derived_alerts_follow_rules sample_parseFloat sample_toFixed1 sample_getTime
           1700000000000 (VObj ∅) (Some [sample_position]) [sample_alert 1700000000000]).
  by vm_compute.
Defined.

Lemma alerts_panel_in_dashboard_witness :
  let actions := [Effect 1700000000000 VUndef None; Dismiss "pos-0-profit";
                  Effect 1700000005000 VUndef None] in
  Forall from_dashboard actions ∧
  history sample_parseFloat sample_toFixed1 sample_getTime actions = [].
Proof.
  split; [by repeat constructor|].
  apply (alerts_panel_in_dashboard_stays_empty sample_parseFloat sample_toFixed1
           sample_getTime).
  by repeat constructor.
Defined.

(** X15: [formatTimestamp] says "Just now" below one minute (also for a
    timestamp ahead of the clock), a number of minutes from 1 to 59 below
    one hour, a number of hours from 1 to 23 below one day, and a date from
    one day on. *)
Theorem formatTimestamp_ranges (toLocaleDateString : Z → string) now timestamp :
  let shown := formatTimestamp toLocaleDateString now timestamp in
  let diff := (now - timestamp)%Z in
  ((diff < 60000)%Z → shown = "Just now") ∧
  ((60000 <= diff < 3600000)%Z →
     ∃ n, (1 <= n <= 59)%Z ∧ shown = pretty n +:+ "m ago") ∧
  ((3600000 <= diff < 86400000)%Z →
     ∃ n, (1 <= n <= 23)%Z ∧ shown = pretty n +:+ "h ago") ∧
  ((86400000 <= diff)%Z → shown = toLocaleDateString timestamp).
Proof.
  intros shown diff. unfold shown, formatTimestamp. fold diff.
  repeat split.
  - intros H. by assert ((diff <? 60000)%Z = true) as -> by (apply Z.ltb_lt; lia).
  - intros H.
    assert ((diff <? 60000)%Z = false) as -> by (apply Z.ltb_ge; lia).
    assert ((diff <? 3600000)%Z = true) as -> by (apply Z.ltb_lt; lia).
    exists (diff / 60000)%Z. split; [|done].
    split; [apply Z.div_le_lower_bound; lia | ].
    assert (diff / 60000 < 60)%Z; [apply Z.div_lt_upper_bound; lia | lia].
  - intros H.
    assert ((diff <? 60000)%Z = false) as -> by (apply Z.ltb_ge; lia).
    assert ((diff <? 3600000)%Z = false) as -> by (apply Z.ltb_ge; lia).
    assert ((diff <? 86400000)%Z = true) as -> by (apply Z.ltb_lt; lia).
    exists (diff / 3600000)%Z. split; [|done].
    split; [apply Z.div_le_lower_bound; lia | ].
    assert (diff / 3600000 < 24)%Z; [apply Z.div_lt_upper_bound; lia | lia].
  - intros H.
    assert ((diff <? 60000)%Z = false) as -> by (apply Z.ltb_ge; lia).
    assert ((diff <? 3600000)%Z = false) as -> by (apply Z.ltb_ge; lia).
    by assert ((diff <? 86400000)%Z = false) as -> by (apply Z.ltb_ge; lia).
Qed.

Lemma formatTimestamp_witness :
  let toLocaleDateString := fun _ : Z => "11/14/2023" in
  let shown := formatTimestamp toLocaleDateString 1700000120000 1700000000000 in
  (60000 <= 1700000120000 - 1700000000000 < 3600000)%Z ∧
  ∃ n, (1 <= n <= 59)%Z ∧ shown = pretty n +:+ "m ago".
Proof.
  split; [lia|].
  apply (formatTimestamp_ranges (fun _ : Z => "11/14/2023") 1700000120000 1700000000000).
  lia.
Defined.

End AlertsViewFacts.

(** ** The position monitor *)

Section PositionMonitorFacts.
Import APIService PositionMonitor.

Section PositionCoercion.
Variable toNumber : value → float.

Lemma open_positions_shown data shown :
  open_positions toNumber data = Some shown →
  Forall (fun pos => open_size toNumber pos = Some true) shown ∧ sublist shown data.
Proof.
  revert shown. induction data as [|pos rest IH]; intros shown H; cbn in H.
  - simplify_eq. split; constructor.
  - destruct (open_size toNumber pos) as [keep|] eqn:Ek; [|done].
    destruct (open_positions toNumber rest) as [shown'|]; [|done].
    destruct (IH _ eq_refl) as [Hall Hsub]. simplify_eq.
    destruct keep.
    + split; [by constructor | by apply sublist_skip].
    + split; [done | by apply sublist_cons].
Qed.

Lemma open_positions_throws data :
  open_positions toNumber data = None → ∃ pos, pos ∈ data ∧ is_nullish pos = true.
Proof.
  induction data as [|pos rest IH]; cbn; [done|].
  destruct (open_size toNumber pos) as [keep|] eqn:Ek.
  - destruct (open_positions toNumber rest) as [shown'|]; [done|].
    intros _. destruct (IH eq_refl) as (p & Hp & Hn). exists p. split; [by right | done].
  - intros _. exists pos. split; [by left|].
    unfold open_size in Ek. by destruct (is_nullish pos).
Qed.

(** X16: one call of [fetchPosition] for a symbol.  It ends with the
    loading flag cleared and shows only positions whose size is not zero.
    A request that fails is not reported: [getPositions] turns it into [{}],
    so the monitor shows "No Open Positions" with no error, as it does for
    a symbol without positions.  The error message is set only when the
    response is an array that holds [null] or [undefined]; then no position
    is shown. *)
Theorem position_fetch_hides_request_failure net symbol m :
  symbol ≠ "" →
  let m' := fetchPosition toNumber net symbol m in
  loading m' = false ∧
  Forall (fun pos => open_size toNumber pos = Some true) (positions m') ∧
  (is_rejected (request net (GET ("/positions/" +:+ symbol))) = true →
   m' = Monitor [] false None ∧ render m' = EmptyState) ∧
  (error m' = None ∨
   (positions m' = [] ∧
    ∃ data pos, request net (GET ("/positions/" +:+ symbol)) = Fulfilled (VArr data) ∧
                pos ∈ data ∧ is_nullish pos = true)).
Proof.
  intros Hs m'. unfold m', fetchPosition, fetchPosition_enter.
  apply String.eqb_neq in Hs. rewrite Hs. unfold getPositions.
  destruct (request net (GET ("/positions/" +:+ symbol))) as [data|e]; cbn [recover].
  - unfold fetchPosition_settle. cbn [error positions].
    destruct data as [| | | | |data|o];
      try (destruct (_ && _ && _) eqn:Ec; cbn;
           (split; [done|]; split; [|split; [done|by left]]);
           [|constructor]; apply Forall_singleton;
           apply andb_prop in Ec as [_ Ec];
           match type of Ec with default _ ?o = _ => by destruct o as [[]|] end).
    destruct (open_positions toNumber data) as [shown|] eqn:Eo; cbn.
    + apply open_positions_shown in Eo as [Hall _].
      split; [done|]. split; [done|]. split; [done|by left].
    + apply open_positions_throws in Eo as (pos & Hp & Hn).
      split; [done|]. split; [constructor|]. split; [done|].
      right. split; [done|]. eauto.
  - cbn. split; [done|]. split; [constructor|]. split; [done|by left].
Qed.

End PositionCoercion.

Lemma position_fetch_witness :
  "BTCUSD" ≠ "" ∧
  let m' := fetchPosition sample_toNumber offline "BTCUSD" (Monitor [] false (Some "old")) in
  loading m' = false ∧
  Forall (fun pos => open_size sample_toNumber pos = Some true) (positions m') ∧
  (is_rejected (request offline (GET ("/positions/" +:+ "BTCUSD"))) = true →
   m' = Monitor [] false None ∧ render m' = EmptyState) ∧
  (error m' = None ∨
   (positions m' = [] ∧
    ∃ data pos, request offline (GET ("/positions/" +:+ "BTCUSD")) = Fulfilled (VArr data) ∧
                pos ∈ data ∧ is_nullish pos = true)).
Proof.
  split; [done|].
  apply (position_fetch_hides_request_failure sample_toNumber offline "BTCUSD" (Monitor [] false (Some "old"))).
  done.
Defined.

End PositionMonitorFacts.

(** ** The grid bot panel *)

Section GridBotFacts.
Import APIService TradingDashboard GridBotPanel.

Lemma handle_control_value awaited st :
  (handle_control awaited st).2
  = match awaited with
    | Fulfilled r => js_or r no_response
    | Rejected e => failure_of e
    end.
Proof. destruct awaited; unfold handle_control; [|done]. by destruct (_ && _). Qed.

Section GridCoercion.
Variable toNumber : value → float.
Variable toString : value → string.


(** X18: what the grid panel tells the user after a start that passed the
    checks, or after a stop.  With the dashboard's handlers the panel's own
    [catch] branch is never taken: the message is the success text when
    the backend's response has a true [success], the response's [message]
    when it has not, "No response from server" when the response is falsy,
    and the error's message when the request failed. *)
Theorem grid_panel_reports_outcome net st p :
  (∀ s, toString (VStr s) = s) →
  let told (done : string) (awaited : settled value) : string :=
    match awaited with
    | Fulfilled r =>
        if truthy (js_and r (js_get r "success")) then done
        else if truthy r then "❌ " +:+ toString (js_get r "message")
        else "❌ No response from server"
    | Rejected e => "❌ " +:+ err_message e
    end in
  (validate toNumber (accountBalance st) (gridConfig p) = None →
   message (start_from_dashboard toNumber toString net st p).1
   = told "✅ Grid Bot started!"
       (reply net (Start (selectedSymbol st) (start_config p)) st)) ∧
  message (stop_from_dashboard toString net st p).1
  = told "✅ Grid Bot stopped!" (reply net (Stop (selectedSymbol st)) st) ∧
  loading (stop_from_dashboard toString net st p).1 = false.
Proof.
  intros toString_string told.
  assert (∀ done awaited,
    report toString done (Fulfilled (handle_control awaited st).2) = told done awaited) as Hr.
  { intros done awaited. rewrite handle_control_value.
    destruct awaited as [r|e]; unfold report, told, js_and, js_or.
    - destruct (truthy r) eqn:Hr.
      + assert (is_nullish r = false) as -> by (by destruct r).
        by destruct (truthy (js_get r "success")).
      + change (is_nullish no_response) with false.
        replace (js_get no_response "success") with (VBool false) by reflexivity.
        replace (js_get no_response "message") with (VStr "No response from server")
          by reflexivity.
        cbn [truthy]. by rewrite toString_string, !Hr.
    - change (is_nullish (failure_of e)) with false.
      replace (js_get (failure_of e) "success") with (VBool false) by reflexivity.
      replace (js_get (failure_of e) "message") with (VStr (err_message e)) by reflexivity.
      cbn [truthy]. by rewrite toString_string. }
  split; [|split].
  - intros Hv. unfold start_from_dashboard, handleStart. rewrite Hv.
    unfold onStartStrategy, handleStartStrategy. cbn [reply].
    destruct (finalConfig (start_config p) st) as [cfg|];
      destruct (handle_control _ st) as [[st' ts] result] eqn:E; cbn [fst message settle];
      rewrite <- Hr, E; reflexivity.
  - unfold stop_from_dashboard, handleStop, onStopStrategy, handleStopStrategy. cbn [reply].
    destruct (handle_control _ st) as [[st' ts] result] eqn:E. cbn [fst message settle].
    rewrite <- Hr, E. reflexivity.
  - unfold stop_from_dashboard, handleStop, onStopStrategy.
    by destruct (handleStopStrategy _ _ _) as [[st' ts] result].
Qed.

End GridCoercion.


Lemma grid_panel_reports_witness :
  let p := sample_panel in
  let told (done : string) (awaited : settled value) : string :=
    match awaited with
    | Fulfilled r =>
        if truthy (js_and r (js_get r "success")) then done
        else if truthy r then "❌ " +:+ sample_toString (js_get r "message")
        else "❌ No response from server"
    | Rejected e => "❌ " +:+ err_message e
    end in
  (∀ s, sample_toString (VStr s) = s) ∧
  validate PositionMonitor.sample_toNumber (accountBalance synced) (gridConfig p) = None ∧
  (validate PositionMonitor.sample_toNumber (accountBalance synced) (gridConfig p) = None →
   message (start_from_dashboard PositionMonitor.sample_toNumber sample_toString
              offline synced p).1
   = told "✅ Grid Bot started!" (reply offline (Start (selectedSymbol synced) (start_config p))
                                   synced)) ∧
  message (stop_from_dashboard sample_toString offline synced p).1
  = told "✅ Grid Bot stopped!" (reply offline (Stop (selectedSymbol synced)) synced) ∧
  loading (stop_from_dashboard sample_toString offline synced p).1 = false.
Proof.
  split; [reflexivity|]. split; [reflexivity|].
  apply (grid_panel_reports_outcome PositionMonitor.sample_toNumber sample_toString
           offline synced sample_panel).
  reflexivity.
Defined.

End GridBotFacts.
